(** * An in-memory publish/subscribe broker

    A shallow embedding of the broker of [server/src/broker.ts] (classes
    [BoundedQueue], [RingBuffer] and [InMemoryBroker]) and of the socket
    message handler of [server/src/index.ts], with the properties the
    specification states about them.

    Conventions of the embedding:
    - a JavaScript object mutated in place is a value passed in and handed
      back: a method [m(args)] of a class [C] is a function
      [args -> C -> result * C], or [args -> C -> C] when it returns nothing;
    - a [Map] is an association list in insertion order, because the order
      of [Map.prototype.values()] decides the order of the emitted messages;
    - counters and lengths are [nat]; numbers that a caller can choose freely
      ([capacity] of a queue, [max], [n], [last_n]) are [Z];
    - what is handed to a socket ([emit], [disconnect]) is appended to a log,
      the [wire]. *)

From Stdlib Require Import ZArith String Ascii Lia List Bool.
From Stdlib Require QArith Qround.
From stdpp Require Import base tactics option list.

Local Open Scope Z_scope.
Local Open Scope nat_scope.

(** ** JavaScript arrays *)

Module JsArray.

(** [a[i] = v] on an array whose slots may be holes ([None]): in range it
    overwrites the slot, out of range it extends the array with holes. *)
Definition assign {T : Type} (i : nat) (v : T) (a : list (option T))
  : list (option T) :=
  if i <? length a then <[i := Some v]> a
  else a ++ replicate (i - length a) None ++ [Some v].

(** [a[i]]: [None] for a hole and for an index out of range
    ([undefined] in the source). *)
Definition read {T : Type} (i : nat) (a : list (option T)) : option T :=
  match a !! i with
  | Some (Some v) => Some v
  | _ => None
  end.

End JsArray.

(** ** [class BoundedQueue<T>] *)

Module BoundedQueue.

Record t (T : Type) : Type := mk
  { items : list T;          (* private items: T[] = [] *)
    capacity : Z }.          (* constructor(private capacity: number) *)
Arguments mk {T} _ _.
Arguments items {T} _.
Arguments capacity {T} _.

(** [new BoundedQueue<T>(capacity)] *)
Definition new {T : Type} (capacity : Z) : t T := mk [] capacity.

(** [pushDropOldest(item)]: [items.shift()] removes the first element and
    does nothing on an empty array, which is [tl]. *)
Definition pushDropOldest {T : Type} (item : T) (q : t T) : nat * t T :=
  if (Z.of_nat (length (items q)) >=? capacity q)%Z
  then (1, mk (tl (items q) ++ [item]) (capacity q))
  else (0, mk (items q ++ [item]) (capacity q)).

(** [drain(max)]: [items.splice(0, Math.min(max, items.length))]. *)
Definition drain {T : Type} (max : Z) (q : t T) : list T * t T :=
  if (max <=? 0)%Z then ([], q)
  else
    let k := Z.to_nat (Z.min max (Z.of_nat (length (items q)))) in
    (take k (items q), mk (drop k (items q)) (capacity q)).

(** [get length()] *)
Definition length {T : Type} (q : t T) : nat := List.length (items q).

End BoundedQueue.

(** ** [class RingBuffer<T>] *)

Module RingBuffer.

Record t (T : Type) : Type := mk
  { buffer : list (option T);   (* (T | undefined)[] *)
    start : nat;
    count : nat;
    capacity : nat }.
Arguments mk {T} _ _ _ _.
Arguments buffer {T} _.
Arguments start {T} _.
Arguments count {T} _.
Arguments capacity {T} _.

(** [new RingBuffer<T>(capacity)]: [new Array(capacity)] is [capacity]
    holes.  ([new Array] throws on a negative or fractional length, so a
    ring that exists has a natural number as capacity.) *)
Definition new {T : Type} (capacity : nat) : t T :=
  mk (replicate capacity None) 0 0 capacity.

(** [(start + i) % capacity]; the remainder by zero is [NaN], which is
    no index of the array. *)
Definition slot (capacity i : nat) : option nat :=
  if capacity =? 0 then None else Some (i mod capacity).

(** [append(value)] *)
Definition append {T : Type} (value : T) (r : t T) : t T :=
  if capacity r =? 0 then r
  else
    let end_ := (start r + count r) mod capacity r in
    let buffer' := JsArray.assign end_ value (buffer r) in
    if count r <? capacity r
    then mk buffer' (start r) (S (count r)) (capacity r)
    else mk buffer' ((start r + 1) mod capacity r) (count r) (capacity r).

(** One turn of the loop of [last]: the slot [i] places after [start],
    pushed to [out] unless it is [undefined]. *)
Definition pick {T : Type} (r : t T) (i : nat) : list T :=
  match slot (capacity r) (start r + i) with
  | Some idx => option_list (JsArray.read idx (buffer r))
  | None => []
  end.

(** [last(n)]: [for (i = count - take; i < count; i++)].  [take] is at
    most [count], so the loop starts at a natural number; when [n] is
    negative it starts above [count] and does not run. *)
Definition last {T : Type} (n : Z) (r : t T) : list T * t T :=
  let take := Z.min n (Z.of_nat (count r)) in
  let lo := Z.to_nat (Z.of_nat (count r) - take) in
  (flat_map (pick r) (seq lo (count r - lo)), r).

(** The ring after a sequence of appends, oldest first. *)
Definition appends {T : Type} (xs : list T) (r : t T) : t T :=
  fold_left (fun r x => append x r) xs r.

End RingBuffer.

(** ** [Map<string, V>] *)

Module JsMap.

(** Entries in insertion order; a key occurs once. *)
Definition t (V : Type) : Type := list (string * V).

(** [new Map()] *)
Definition empty {V : Type} : t V := [].

(** [m.get(k)] *)
Fixpoint get {V : Type} (k : string) (m : t V) : option V :=
  match m with
  | [] => None
  | (k', v) :: m' => if String.eqb k k' then Some v else get k m'
  end.

(** [m.has(k)] *)
Definition has {V : Type} (k : string) (m : t V) : bool :=
  match get k m with Some _ => true | None => false end.

(** [m.set(k, v)]: an existing key keeps its place and takes the new
    value, a new key goes to the end. *)
Fixpoint set {V : Type} (k : string) (v : V) (m : t V) : t V :=
  match m with
  | [] => [(k, v)]
  | (k', v') :: m' =>
      if String.eqb k k' then (k', v) :: m' else (k', v') :: set k v m'
  end.

(** [m.delete(k)]: whether the key was there, and the map without it. *)
Definition delete {V : Type} (k : string) (m : t V) : bool * t V :=
  (has k m, List.filter (fun e => negb (String.eqb k (fst e))) m).

(** [m.size] *)
Definition size {V : Type} (m : t V) : nat := length m.

(** [m.values()] and [m.keys()], in iteration order. *)
Definition values {V : Type} (m : t V) : list V := map snd m.
Definition keys {V : Type} (m : t V) : list string := map fst m.

End JsMap.

(** ** [types.ts]: the messages *)

Definition UUID : Type := string.

(** A value of type [unknown] that came over the wire. *)
#[local] Unset Elimination Schemes.
Inductive Json : Type :=
| JNull
| JBool (b : bool)
| JNumber (z : Z)
| JString (s : string)
| JArray (l : list Json)
| JObject (l : list (string * Json)).
#[local] Set Elimination Schemes.

Record PublishPayload : Type :=
  { id : UUID; payload : Json }.

(** The string [new Date(ms).toISOString()], which is the ISO-8601
    rendering in UTC of the instant [ms] (milliseconds since the epoch); it
    is kept as that instant. *)
Record IsoString : Type := Iso { instant : Z }.

Definition toISOString (date : Z) : IsoString := Iso date.

Inductive ErrorCode : Type :=
| BAD_REQUEST | TOPIC_NOT_FOUND | SLOW_CONSUMER | UNAUTHORIZED | INTERNAL.

(** [ServerMessage]: the first two arguments of every constructor are the
    optional [request_id] and [ts] of [ServerMessageBase]. *)
Inductive ServerMessage : Type :=
| AckMessage (request_id : option UUID) (ts : option IsoString)
    (topic : option string)                       (* status: "ok" *)
| EventMessage (request_id : option UUID) (ts : option IsoString)
    (topic : string) (message : PublishPayload)
| ErrorMessage (request_id : option UUID) (ts : option IsoString)
    (code : ErrorCode) (message : string)
| PongMessage (request_id : option UUID) (ts : option IsoString)
| InfoMessage (request_id : option UUID) (ts : option IsoString)
    (topic : option string) (msg : string).

Definition request_id (m : ServerMessage) : option UUID :=
  match m with
  | AckMessage r _ _ | EventMessage r _ _ _ | ErrorMessage r _ _ _
  | PongMessage r _ | InfoMessage r _ _ _ => r
  end.

Definition ts (m : ServerMessage) : option IsoString :=
  match m with
  | AckMessage _ t _ | EventMessage _ t _ _ | ErrorMessage _ t _ _
  | PongMessage _ t | InfoMessage _ t _ _ => t
  end.

Definition is_event (m : ServerMessage) : bool :=
  match m with EventMessage _ _ _ _ => true | _ => false end.

(** [ClientMessage], with [OtherMessage] for a message whose [type] is
    none of the four (the [default] branch of the handler). *)
Inductive ClientMessage : Type :=
| SubscribeMessage (request_id : option UUID) (topic client_id : string)
    (last_n : option Z)
| UnsubscribeMessage (request_id : option UUID) (topic client_id : string)
| PublishMessage (request_id : option UUID) (topic : string)
    (message : PublishPayload)
| PingMessage (request_id : option UUID)
| OtherMessage (request_id : option UUID).

(** ** Sockets *)

(** A socket is known by its [socket.id]. *)
Definition SocketId : Type := string.

Inductive SocketCall : Type :=
| Emit (m : ServerMessage)      (* socket.emit("message", m) *)
| Disconnect.                   (* socket.disconnect(true) *)

(** One call on a socket.  [registry] is a history variable, no data of
    the program: the names in the broker's [topics] map at the moment of
    the call. *)
Record Sent : Type :=
  { to : SocketId; call : SocketCall; registry : list string }.

(** ** [broker.ts]: the state *)

Record BrokerOptions : Type :=
  { ringBufferSize : nat;
    subscriberQueueSize : Z;
    heartbeatIntervalMs : Z }.

Record QueuedEvent : Type :=
  { qe_topic : string; qe_message : PublishPayload }.

Record Subscriber : Type :=
  { socket : SocketId;
    clientId : string;
    queue : BoundedQueue.t QueuedEvent }.

Module TopicStats.
Record t : Type := mk
  { messages : nat; subscribers : nat; delivered : nat; dropped : nat }.
End TopicStats.

Record Topic : Type :=
  { name : string;
    subscribers : JsMap.t Subscriber;          (* key: socket.id *)
    ring : RingBuffer.t PublishPayload;
    stats : TopicStats.t }.

(** The broker ([topics], [opts]) with the clock it reads and the log of
    the calls it made on sockets. *)
Record World : Type :=
  { topics : JsMap.t Topic;
    opts : BrokerOptions;
    now : Z;                                   (* new Date() *)
    wire : list Sent }.

(** [new InMemoryBroker(io, opts)] at time [now]. *)
Definition init (opts : BrokerOptions) (now : Z) : World :=
  {| topics := JsMap.empty; opts := opts; now := now; wire := [] |}.

Definition with_topics (ts : JsMap.t Topic) (w : World) : World :=
  {| topics := ts; opts := opts w; now := now w; wire := wire w |}.

Definition with_wire (l : list Sent) (w : World) : World :=
  {| topics := topics w; opts := opts w; now := now w; wire := l |}.

Definition with_queue (q : BoundedQueue.t QueuedEvent) (s : Subscriber)
  : Subscriber :=
  {| socket := socket s; clientId := clientId s; queue := q |}.

Definition emit (s : SocketId) (m : ServerMessage) (w : World) : World :=
  with_wire
    (wire w ++ [{| to := s; call := Emit m;
                   registry := JsMap.keys (topics w) |}]) w.

(** [socket.disconnect(true)].  The [disconnect] event that the transport
    raises for it reaches [handleSocketDisconnect] as an operation of its
    own, later. *)
Definition disconnect (s : SocketId) (w : World) : World :=
  with_wire
    (wire w ++ [{| to := s; call := Disconnect;
                   registry := JsMap.keys (topics w) |}]) w.

(** ** [broker.ts]: [class InMemoryBroker] *)

Definition incr_delivered (st : TopicStats.t) : TopicStats.t :=
  TopicStats.mk (TopicStats.messages st) (TopicStats.subscribers st)
    (S (TopicStats.delivered st)) (TopicStats.dropped st).

Definition add_dropped (d : nat) (st : TopicStats.t) : TopicStats.t :=
  TopicStats.mk (TopicStats.messages st) (TopicStats.subscribers st)
    (TopicStats.delivered st) (TopicStats.dropped st + d).

Definition incr_messages (st : TopicStats.t) : TopicStats.t :=
  TopicStats.mk (S (TopicStats.messages st)) (TopicStats.subscribers st)
    (TopicStats.delivered st) (TopicStats.dropped st).

Definition set_subscribers (n : nat) (st : TopicStats.t) : TopicStats.t :=
  TopicStats.mk (TopicStats.messages st) n
    (TopicStats.delivered st) (TopicStats.dropped st).

(** What a loop over subscribers carries along: the [stats] of the topic
    and the calls made on sockets so far. *)
Definition Acc : Type := (TopicStats.t * list Sent)%type.

(** The body of the loop of [flush]: emit the event, count it. *)
Definition flush_one (now : Z) (reg : list string) (s : SocketId)
    (acc : Acc) (ev : QueuedEvent) : Acc :=
  let out :=
    EventMessage None (Some (toISOString now)) (qe_topic ev) (qe_message ev)
  in
  (incr_delivered (fst acc),
   snd acc ++ [{| to := s; call := Emit out; registry := reg |}]).

(** [private flush(sub, topic)] *)
Definition flush (now : Z) (reg : list string) (sub : Subscriber) (acc : Acc)
  : Subscriber * Acc :=
  let '(batch, q) := BoundedQueue.drain 100 (queue sub) in
  (with_queue q sub, fold_left (flush_one now reg (socket sub)) batch acc).

(** The body shared by the loops of [publish] and of the replay in
    [subscribe]: push on the queue of [sub], account a drop, flush. *)
Definition enqueue (now : Z) (reg : list string) (topicName : string)
    (message : PublishPayload) (sub : Subscriber) (acc : Acc)
  : Subscriber * Acc :=
  let '(dropped, q) :=
    BoundedQueue.pushDropOldest
      {| qe_topic := topicName; qe_message := message |} (queue sub) in
  let st := if 0 <? dropped then add_dropped dropped (fst acc) else fst acc in
  flush now reg (with_queue q sub) (st, snd acc).

(** [for (const sub of topic.subscribers.values())] in [publish]; every
    subscriber is updated where it stands in the table. *)
Fixpoint fanout (now : Z) (reg : list string) (topicName : string)
    (message : PublishPayload) (subs : JsMap.t Subscriber) (acc : Acc)
  : JsMap.t Subscriber * Acc :=
  match subs with
  | [] => ([], acc)
  | (k, sub) :: rest =>
      let '(sub', acc') := enqueue now reg topicName message sub acc in
      let '(rest', acc'') := fanout now reg topicName message rest acc' in
      ((k, sub') :: rest', acc'')
  end.

(** [for (const m of toSend)] in [subscribe]. *)
Definition replay (now : Z) (reg : list string) (topicName : string)
    (toSend : list PublishPayload) (sub : Subscriber) (acc : Acc)
  : Subscriber * Acc :=
  fold_left (fun sa m => enqueue now reg topicName m (fst sa) (snd sa))
    toSend (sub, acc).

Inductive CreateResult : Type := CreateOk | CreateConflict.
Inductive DeleteResult : Type := DeleteOk | DeleteNotFound.
Inductive PublishResult : Type :=
| PublishOk (ts : IsoString) | PublishNotFound.

(** [createTopic(name)] *)
Definition createTopic (name : string) (w : World) : CreateResult * World :=
  if JsMap.has name (topics w) then (CreateConflict, w)
  else
    let topic :=
      {| name := name;
         subscribers := JsMap.empty;
         ring := RingBuffer.new (ringBufferSize (opts w));
         stats := TopicStats.mk 0 0 0 0 |} in
    (CreateOk, with_topics (JsMap.set name topic (topics w)) w).

(** [deleteTopic(name)] *)
Definition deleteTopic (name : string) (w : World) : DeleteResult * World :=
  match JsMap.get name (topics w) with
  | None => (DeleteNotFound, w)
  | Some topic =>
      let info :=
        InfoMessage None (Some (toISOString (now w))) (Some name)
          "topic_deleted"%string in
      let w1 :=
        fold_left
          (fun w sub => disconnect (socket sub) (emit (socket sub) info w))
          (JsMap.values (subscribers topic)) w in
      (DeleteOk, with_topics (snd (JsMap.delete name (topics w1))) w1)
  end.

(** The [TOPIC_NOT_FOUND] error of [subscribe] and [unsubscribe];
    [if (requestId) err.request_id = requestId] keeps a request id that is
    not the empty string. *)
Definition truthy (requestId : option UUID) : option UUID :=
  match requestId with
  | Some EmptyString => None
  | r => r
  end.

Definition not_found_message (topicName : string) : string :=
  ("topic " ++ topicName ++ " not found")%string.

(** [subscribe(socket, topicName, clientId, lastN, requestId)] *)
Definition subscribe (socket : SocketId) (topicName clientId : string)
    (lastN : option Z) (requestId : option UUID) (w : World) : World :=
  match JsMap.get topicName (topics w) with
  | None =>
      emit socket
        (ErrorMessage (truthy requestId) (Some (toISOString (now w)))
           TOPIC_NOT_FOUND (not_found_message topicName)) w
  | Some topic =>
      let sub :=
        {| socket := socket; clientId := clientId;
           queue := BoundedQueue.new (subscriberQueueSize (opts w)) |} in
      let subs := JsMap.set socket sub (subscribers topic) in
      let st := set_subscribers (JsMap.size subs) (stats topic) in
      let reg := JsMap.keys (topics w) in
      let ack :=
        {| to := socket;
           call := Emit (AckMessage (truthy requestId)
                           (Some (toISOString (now w))) (Some topicName));
           registry := reg |} in
      let '(sub', (st', out)) :=
        match lastN with
        | Some n =>
            if (0 <? n)%Z then
              let toSend := fst (RingBuffer.last n (ring topic)) in
              replay (now w) reg topicName toSend sub (st, [ack])
            else (sub, (st, [ack]))
        | None => (sub, (st, [ack]))
        end in
      let topic' :=
        {| name := name topic;
           subscribers := JsMap.set socket sub' subs;
           ring := ring topic;
           stats := st' |} in
      with_wire (wire w ++ out)
        (with_topics (JsMap.set topicName topic' (topics w)) w)
  end.

(** [unsubscribe(socket, topicName, _clientId, requestId)] *)
Definition unsubscribe (socket : SocketId) (topicName _clientId : string)
    (requestId : option UUID) (w : World) : World :=
  match JsMap.get topicName (topics w) with
  | None =>
      emit socket
        (ErrorMessage (truthy requestId) (Some (toISOString (now w)))
           TOPIC_NOT_FOUND (not_found_message topicName)) w
  | Some topic =>
      let subs := snd (JsMap.delete socket (subscribers topic)) in
      let topic' :=
        {| name := name topic;
           subscribers := subs;
           ring := ring topic;
           stats := set_subscribers (JsMap.size subs) (stats topic) |} in
      emit socket
        (AckMessage (truthy requestId) (Some (toISOString (now w)))
           (Some topicName))
        (with_topics (JsMap.set topicName topic' (topics w)) w)
  end.

(** [publish(topicName, message, requestId)]; [requestId] is not used. *)
Definition publish (topicName : string) (message : PublishPayload)
    (requestId : option UUID) (w : World) : PublishResult * World :=
  match JsMap.get topicName (topics w) with
  | None => (PublishNotFound, w)
  | Some topic =>
      let ts := toISOString (now w) in
      let st := incr_messages (stats topic) in
      let ring' := RingBuffer.append message (ring topic) in
      let '(subs, (st', out)) :=
        fanout (now w) (JsMap.keys (topics w)) topicName message
          (subscribers topic) (st, []) in
      let topic' :=
        {| name := name topic; subscribers := subs;
           ring := ring'; stats := st' |} in
      (PublishOk ts,
       with_wire (wire w ++ out)
         (with_topics (JsMap.set topicName topic' (topics w)) w))
  end.

(** [handleSocketDisconnect(socket)] *)
Definition handleSocketDisconnect (socket : SocketId) (w : World) : World :=
  with_topics
    (map (fun e : string * Topic =>
            let topic := snd e in
            let '(removed, subs) := JsMap.delete socket (subscribers topic) in
            if removed then
              (fst e,
               {| name := name topic; subscribers := subs;
                  ring := ring topic;
                  stats := set_subscribers (JsMap.size subs) (stats topic) |})
            else e)
       (topics w)) w.

(** [getStats()], as the list of the entries of its [topics] object. *)
Definition getStats (w : World) : list (string * TopicStats.t) :=
  map (fun e : string * Topic =>
         (fst e,
          set_subscribers (JsMap.size (subscribers (snd e))) (stats (snd e))))
    (topics w).

(** The callback of the timer of [start()], given the sockets
    [io.sockets.sockets] holds at that tick. *)
Definition heartbeat (sockets : list SocketId) (w : World) : World :=
  let msg := InfoMessage None (Some (toISOString (now w))) None "ping"%string in
  fold_left (fun w s => emit s msg w) sockets w.

(** ** [index.ts]: the broker of the server and the handler of a socket *)

(** The options of [new InMemoryBroker(io, {...})]. *)
Definition server_opts : BrokerOptions :=
  {| ringBufferSize := 100;
     subscriberQueueSize := 512;
     heartbeatIntervalMs := 30000 |}.

(** [socket.on("message", (msg) => ...)].  The [catch] branch, which
    answers [INTERNAL], is left out: nothing in the embedding throws. *)
Definition onMessage (socket : SocketId) (msg : ClientMessage) (w : World)
  : World :=
  let now_ := toISOString (now w) in
  match msg with
  | SubscribeMessage request_id topic client_id last_n =>
      subscribe socket topic client_id last_n request_id w
  | UnsubscribeMessage request_id topic client_id =>
      unsubscribe socket topic client_id request_id w
  | PublishMessage request_id topic message =>
      match publish topic message request_id w with
      | (PublishNotFound, w') =>
          emit socket
            (ErrorMessage request_id (Some now_) TOPIC_NOT_FOUND
               (not_found_message topic)) w'
      | (PublishOk ts, w') =>
          emit socket (AckMessage request_id (Some ts) (Some topic)) w'
      end
  | PingMessage request_id =>
      emit socket (PongMessage request_id (Some now_)) w
  | OtherMessage request_id =>
      emit socket
        (ErrorMessage request_id (Some now_) BAD_REQUEST
           "unknown type"%string) w
  end.

(** ** Runs of the broker *)

(** What can happen to a running broker: a call of one of its public
    methods, a message on a socket, a heartbeat, time passing. *)
Inductive Op : Type :=
| OpCreateTopic (name : string)
| OpDeleteTopic (name : string)
| OpSubscribe (socket : SocketId) (topicName clientId : string)
    (lastN : option Z) (requestId : option UUID)
| OpUnsubscribe (socket : SocketId) (topicName clientId : string)
    (requestId : option UUID)
| OpPublish (topicName : string) (message : PublishPayload)
    (requestId : option UUID)
| OpSocketDisconnect (socket : SocketId)
| OpMessage (socket : SocketId) (msg : ClientMessage)
| OpHeartbeat (sockets : list SocketId)
| OpClock (now : Z).

Definition step (w : World) (op : Op) : World :=
  match op with
  | OpCreateTopic name => snd (createTopic name w)
  | OpDeleteTopic name => snd (deleteTopic name w)
  | OpSubscribe s t c n r => subscribe s t c n r w
  | OpUnsubscribe s t c r => unsubscribe s t c r w
  | OpPublish t m r => snd (publish t m r w)
  | OpSocketDisconnect s => handleSocketDisconnect s w
  | OpMessage s msg => onMessage s msg w
  | OpHeartbeat ss => heartbeat ss w
  | OpClock z =>
      {| topics := topics w; opts := opts w; now := z; wire := wire w |}
  end.

Definition run (ops : list Op) (w : World) : World := fold_left step ops w.

(** ** Vocabulary of the properties *)

(** Every subscriber record of every topic. *)
Definition all_subscribers (w : World) : list Subscriber :=
  flat_map (fun e : string * Topic => JsMap.values (subscribers (snd e)))
    (topics w).

Definition queue_empty (s : Subscriber) : Prop :=
  BoundedQueue.items (queue s) = [].

Definition queues_empty (w : World) : Prop :=
  Forall queue_empty (all_subscribers w).

(** The queue of [s] is one that [subscribe] made under the options of
    the broker, and holds no more than its capacity. *)
Definition queue_within (Q : Z) (s : Subscriber) : Prop :=
  BoundedQueue.capacity (queue s) = Q /\
  (0 <= Z.of_nat (BoundedQueue.length (queue s)) <= Q)%Z.

(** The event message that [flush] builds for a payload of a topic. *)
Definition event_sent (now : Z) (reg : list string) (s : SocketId)
    (topicName : string) (m : PublishPayload) : Sent :=
  {| to := s;
     call := Emit (EventMessage None (Some (toISOString now)) topicName m);
     registry := reg |}.

(** The messages emitted in a stretch of the wire. *)
Definition emitted (l : list Sent) : list ServerMessage :=
  flat_map (fun x => match call x with Emit m => [m] | Disconnect => [] end) l.

(** [r] is what a ring of capacity [R] is after the values [xs] were
    appended to it, oldest first: the value number [j] of [xs] sits in the
    slot [j mod R] for as long as it is among the last [count r]. *)
Record tracks {T : Type} (R : nat) (xs : list T) (r : RingBuffer.t T)
  : Prop :=
  { tr_capacity : RingBuffer.capacity r = R;
    tr_length : length (RingBuffer.buffer r) = R;
    tr_count : RingBuffer.count r = Nat.min R (length xs);
    tr_start : R <> 0 ->
               RingBuffer.start r = (length xs - RingBuffer.count r) mod R;
    tr_slots : forall j, length xs - RingBuffer.count r <= j < length xs ->
                         RingBuffer.buffer r !! (j mod R) = Some (xs !! j) }.

(** The state of the tables between two operations: in every topic a
    socket has one record, filed under its own id, whose queue is as
    [subscribe] made it, empty and of the configured capacity. *)
Definition sub_ok (Q : Z) (e : string * Subscriber) : Prop :=
  socket (snd e) = fst e /\ queue (snd e) = BoundedQueue.new Q.

Definition topic_ok (Q : Z) (e : string * Topic) : Prop :=
  List.NoDup (JsMap.keys (subscribers (snd e))) /\
  Forall (sub_ok Q) (subscribers (snd e)).

Definition Inv (w : World) : Prop :=
  Forall (topic_ok (subscriberQueueSize (opts w))) (topics w).

(** What one [enqueue] on an empty queue of capacity [cap] does to the
    counters: the push reports a drop when [0 >= cap], and the flush
    delivers the one queued event. *)
Definition account (cap : Z) (st : TopicStats.t) : TopicStats.t :=
  incr_delivered (if (0 >=? cap)%Z then add_dropped 1 st else st).

(** The socket [c] has a record in the table of topic [t]. *)
Definition subscribed (c : SocketId) (t : string) (w : World) : Prop :=
  exists topic, JsMap.get t (topics w) = Some topic /\
                JsMap.has c (subscribers topic) = true.

(** The payloads of the events of topic [t] emitted to socket [c] in a
    stretch of the wire, in the order of emission. *)
Definition events_for (c : SocketId) (t : string) (l : list Sent)
  : list PublishPayload :=
  flat_map
    (fun x =>
       match call x with
       | Emit (EventMessage _ _ t' m) =>
           if String.eqb (to x) c && String.eqb t' t then [m] else []
       | _ => []
       end) l.

(** The [request_id] of an inbound message. *)
Definition inbound_request_id (msg : ClientMessage) : option UUID :=
  match msg with
  | SubscribeMessage r _ _ _ | UnsubscribeMessage r _ _
  | PublishMessage r _ _ | PingMessage r | OtherMessage r => r
  end.

(** The two calls [deleteTopic] makes on the socket of a subscriber. *)
Definition notice (now : Z) (reg : list string) (topicName : string)
    (sub : Subscriber) : list Sent :=
  [ {| to := socket sub;
       call := Emit (InfoMessage None (Some (toISOString now))
                       (Some topicName) "topic_deleted"%string);
       registry := reg |};
    {| to := socket sub; call := Disconnect; registry := reg |} ].

(** What [subscribe] replays: [if (lastN && lastN > 0)] the result of
    [topic.ring.last(lastN)], and nothing otherwise. *)
Definition replayed (lastN : option Z) (ring : RingBuffer.t PublishPayload)
  : list PublishPayload :=
  match lastN with
  | Some n => if (0 <? n)%Z then fst (RingBuffer.last n ring) else []
  | None => []
  end.

(** The [ack] of [subscribe] and [unsubscribe]. *)
Definition ack_sent (now : Z) (reg : list string) (s : SocketId)
    (requestId : option UUID) (topicName : string) : Sent :=
  {| to := s;
     call := Emit (AckMessage (truthy requestId) (Some (toISOString now))
                     (Some topicName));
     registry := reg |}.

(** A burst of publishes on one topic, each with its request id. *)
Definition publish_all (topicName : string)
    (ms : list (PublishPayload * option UUID)) (w : World) : World :=
  fold_left (fun w mr => snd (publish topicName (fst mr) (snd mr) w)) ms w.

(** A call on a socket is no emit, or emits a message whose [ts] is the
    ISO string of the instant [now]. *)
Definition timestamped (now : Z) (x : Sent) : Prop :=
  match call x with
  | Emit m => ts m = Some (toISOString now)
  | Disconnect => True
  end.

(** A call on a socket emits an event without request id, or emits to
    the socket [s] a message of another kind with the request id [r]. *)
Definition reply_or_event (s : SocketId) (r : UUID) (x : Sent) : Prop :=
  match call x with
  | Emit m =>
      if is_event m then request_id m = None
      else request_id m = Some r /\ to x = s
  | Disconnect => False
  end.

(** ** Sample states *)

Definition sample_payload (i : Z) : PublishPayload :=
  {| id := "m"%string;
     payload := JObject [("seq"%string, JNumber i)] |}.

(** The server after: topic [t] created, socket [b] subscribed to it, two
    publishes on it. *)
Definition sample : World :=
  run [ OpCreateTopic "t"%string;
        OpSubscribe "b"%string "t"%string "bob"%string None None;
        OpPublish "t"%string (sample_payload 0) None;
        OpPublish "t"%string (sample_payload 1) None ]
    (init server_opts 0%Z).

(** A state in which the record of socket [b] still holds an event in its
    queue.  (No run of the broker leaves such a state behind; it stands
    for the situation a claim about undelivered events speaks of.) *)
Definition sample_backlog : World :=
  {| topics :=
       [ ("t"%string,
          {| name := "t"%string;
             subscribers :=
               [ ("b"%string,
                  {| socket := "b"%string; clientId := "bob"%string;
                     queue :=
                       BoundedQueue.mk
                         [ {| qe_topic := "t"%string;
                              qe_message := sample_payload 7 |} ]
                         512%Z |}) ];
             ring := RingBuffer.appends [sample_payload 7]
                       (RingBuffer.new 100);
             stats := TopicStats.mk 1 1 0 0 |}) ];
     opts := server_opts; now := 0%Z; wire := [] |}.

(** The scenario S6 on the server: topic [bp], one subscriber, 1200
    publishes. *)
Definition s6 : World :=
  publish_all "bp"%string
    (map (fun i => (sample_payload (Z.of_nat i), None)) (seq 0 1200))
    (subscribe "S"%string "bp"%string "bp1"%string None None
       (snd (createTopic "bp"%string (init server_opts 0%Z)))).

(** ** [broker.ts]: the snapshots *)

Record HealthStats : Type :=
  { uptime_sec : Z; health_topics : nat; health_subscribers : nat }.

(** [getHealth()], given the seconds [process.uptime()] returns. *)
Definition getHealth (uptime : QArith_base.Q) (w : World) : HealthStats :=
  {| uptime_sec := Qround.Qfloor uptime;
     health_topics := JsMap.size (topics w);
     health_subscribers :=
       fold_left (fun acc t => acc + JsMap.size (subscribers t))
         (JsMap.values (topics w)) 0 |}.

(** [getTopics()]: name and number of subscribers of every topic. *)
Definition getTopics (w : World) : list (string * nat) :=
  map (fun t => (name t, JsMap.size (subscribers t))) (JsMap.values (topics w)).

(** ** [index.ts]: the REST endpoints *)

(** A character of the class [[a-zA-Z0-9._-]]. *)
Definition topic_char (a : ascii) : bool :=
  let n := nat_of_ascii a in
  (97 <=? n) && (n <=? 122) || (65 <=? n) && (n <=? 90)
  || (48 <=? n) && (n <=? 57)
  || (n =? 46) || (n =? 95) || (n =? 45).

(** [/^[a-zA-Z0-9._-]+$/.test(s)] *)
Definition topic_regex (s : string) : bool :=
  negb (String.length s =? 0) && forallb topic_char (list_ascii_of_string s).

(** [topicNameSchema.safeParse(v)]: [z.string().min(1).max(200).regex(..)];
    [None] is [undefined].  The data of a success is the string. *)
Definition topicNameSchema (v : option Json) : option string :=
  match v with
  | Some (JString s) =>
      if (1 <=? String.length s) && (String.length s <=? 200) && topic_regex s
      then Some s else None
  | _ => None
  end.

(** What a route answers: [res.status(code).json(body)]. *)
Record Response : Type := { status : nat; body : Json }.

Definition bad_request : Response :=
  {| status := 400;
     body := JObject [ ("error"%string, JString "BAD_REQUEST");
                       ("message"%string, JString "invalid topic name") ] |}.

Definition topic_status (code : nat) (word name : string) : Response :=
  {| status := code;
     body := JObject [ ("status"%string, JString word);
                       ("topic"%string, JString name) ] |}.

(** [app.post("/topics", ...)], given [req.body?.name]. *)
Definition postTopics (name : option Json) (w : World) : Response * World :=
  match topicNameSchema name with
  | None => (bad_request, w)
  | Some data =>
      match createTopic data w with
      | (CreateConflict, w') => (topic_status 409 "conflict" data, w')
      | (CreateOk, w') => (topic_status 201 "created" data, w')
      end
  end.

(** [app.delete("/topics/:name", ...)], given [req.params.name]. *)
Definition deleteTopics (name : string) (w : World) : Response * World :=
  match topicNameSchema (Some (JString name)) with
  | None => (bad_request, w)
  | Some data =>
      match deleteTopic data w with
      | (DeleteNotFound, w') => (topic_status 404 "not_found" data, w')
      | (DeleteOk, w') => (topic_status 200 "deleted" data, w')
      end
  end.

(** What reaches the server of [index.ts]: a request on one of the two
    routes that change the broker, an event of a socket, a tick of the
    heartbeat timer, time passing. *)
Inductive Inbound : Type :=
| HttpPostTopics (name : option Json)
| HttpDeleteTopics (name : string)
| SocketMessage (socket : SocketId) (msg : ClientMessage)
| SocketDisconnect (socket : SocketId)
| HeartbeatTick (sockets : list SocketId)
| ClockAdvance (now : Z).

Definition serve (w : World) (i : Inbound) : World :=
  match i with
  | HttpPostTopics name => snd (postTopics name w)
  | HttpDeleteTopics name => snd (deleteTopics name w)
  | SocketMessage s msg => onMessage s msg w
  | SocketDisconnect s => handleSocketDisconnect s w
  | HeartbeatTick ss => heartbeat ss w
  | ClockAdvance z =>
      {| topics := topics w; opts := opts w; now := z; wire := wire w |}
  end.

Definition serve_all (l : list Inbound) (w : World) : World :=
  fold_left serve l w.

(** ** [BoundedQueue]: a burst of pushes *)

(** [pushDropOldest] of every element of [xs] in turn, with the sum of
    the drops reported. *)
Definition pushes {T : Type} (xs : list T) (q : BoundedQueue.t T)
  : nat * BoundedQueue.t T :=
  fold_left
    (fun dq x =>
       (fst dq + fst (BoundedQueue.pushDropOldest x (snd dq)),
        snd (BoundedQueue.pushDropOldest x (snd dq))))
    xs (0, q).

(** ** More vocabulary *)

(** The record of a topic between two operations: it is filed under its
    name, its counter of subscribers is the size of its table, its ring has
    taken one payload per counted message, it counts no drop when the
    queues have room for an item, and as many drops as deliveries when they
    have not. *)
Definition topic_sound (o : BrokerOptions) (e : string * Topic) : Prop :=
  name (snd e) = fst e
  /\ TopicStats.subscribers (stats (snd e)) = JsMap.size (subscribers (snd e))
  /\ ((0 < subscriberQueueSize o)%Z -> TopicStats.dropped (stats (snd e)) = 0)
  /\ ((subscriberQueueSize o <= 0)%Z ->
      TopicStats.dropped (stats (snd e))
      = TopicStats.delivered (stats (snd e)))
  /\ exists xs,
       tracks (ringBufferSize o) xs (ring (snd e))
       /\ length xs = TopicStats.messages (stats (snd e)).

Definition Sound (w : World) : Prop :=
  Inv w
  /\ List.NoDup (JsMap.keys (topics w))
  /\ Forall (topic_sound (opts w)) (topics w).

(** No counter of [a] is above the one of [b]. *)
Definition counters_le (a b : TopicStats.t) : Prop :=
  TopicStats.messages a <= TopicStats.messages b
  /\ TopicStats.delivered a <= TopicStats.delivered b
  /\ TopicStats.dropped a <= TopicStats.dropped b.

(** A call on a socket that emits a message other than an event. *)
Definition is_reply (x : Sent) : bool :=
  match call x with
  | Emit m => negb (is_event m)
  | Disconnect => false
  end.

(** All names of the registry pass the schema of the routes. *)
Definition names_valid (w : World) : Prop :=
  Forall (fun k => topicNameSchema (Some (JString k)) = Some k)
    (JsMap.keys (topics w)).

(** * Properties *)

(** ** The embedding on small inputs *)

Example ring_keeps_tail :
  fst (RingBuffer.last 2
         (RingBuffer.appends [1; 2; 3; 4; 5] (RingBuffer.new 3))) = [4; 5]
  /\ fst (RingBuffer.last 10
            (RingBuffer.appends [1; 2; 3; 4; 5] (RingBuffer.new 3)))
     = [3; 4; 5]
  /\ fst (RingBuffer.last (-1)
            (RingBuffer.appends [1; 2; 3; 4; 5] (RingBuffer.new 3))) = []
  /\ RingBuffer.appends [1; 2] (RingBuffer.new 0) = RingBuffer.new 0.
Proof. repeat split. Qed.

Example queue_drops_oldest :
  BoundedQueue.pushDropOldest 3 (BoundedQueue.mk [1; 2] 2%Z)
  = (1, BoundedQueue.mk [2; 3] 2%Z)
  /\ BoundedQueue.pushDropOldest 3 (BoundedQueue.mk [1] 2%Z)
     = (0, BoundedQueue.mk [1; 3] 2%Z)
  /\ BoundedQueue.pushDropOldest 3 (BoundedQueue.mk [] 0%Z)
     = (1, BoundedQueue.mk [3] 0%Z)
  /\ BoundedQueue.drain 100 (BoundedQueue.mk [1; 2; 3] 2%Z)
     = ([1; 2; 3], BoundedQueue.mk [] 2%Z)
  /\ BoundedQueue.drain 0 (BoundedQueue.mk [1; 2; 3] 2%Z)
     = ([], BoundedQueue.mk [1; 2; 3] 2%Z).
Proof. repeat split. Qed.

(** Scenario S2: a socket that subscribes with [last_n = 2] after the
    two publishes of [sample] is sent both, in the order of publication;
    the subscriber of before is sent nothing more. *)
Example replay_last_two :
  events_for "c"%string "t"%string
    (wire (onMessage "c"%string
             (SubscribeMessage (Some "rr"%string) "t"%string "r1"%string
                (Some 2%Z)) sample))
  = [sample_payload 0; sample_payload 1]
  /\ events_for "b"%string "t"%string
       (wire (onMessage "c"%string
                (SubscribeMessage (Some "rr"%string) "t"%string "r1"%string
                   (Some 2%Z)) sample))
     = events_for "b"%string "t"%string (wire sample).
Proof. split; vm_compute; reflexivity. Qed.

(** ** The replay ring *)

Module RingFacts.
Import RingBuffer.

Section Ring.
Context {T : Type}.
Implicit Types (r : t T) (xs : list T) (x : T).

Lemma mod_apart (R j l : nat) :
  R <> 0 -> j < l -> l - j < R -> j mod R <> l mod R.
Proof.
  intros HR Hjl Hd E.
  pose proof (Nat.div_mod_eq j R) as Hj.
  pose proof (Nat.div_mod_eq l R) as Hl.
  rewrite E in Hj.
  set (qj := j / R) in *. set (ql := l / R) in *. set (m := l mod R) in *.
  assert (Hq : qj < ql) by nia.
  assert (R * (qj + 1) <= R * ql) by (apply Nat.mul_le_mono_l; lia).
  lia.
Qed.

Lemma tracks_new (R : nat) : tracks R [] (new (T:=T) R).
Proof.
  constructor; simpl.
  - reflexivity.
  - apply length_replicate.
  - now rewrite Nat.min_0_r.
  - intros HR. now rewrite Nat.Div0.mod_0_l.
  - intros j Hj. lia.
Qed.

Lemma tracks_append (R : nat) xs r x :
  tracks R xs r -> tracks R (xs ++ [x]) (append x r).
Proof.
  intros [Hcap Hlen Hcount Hstart Hslots].
  unfold append. rewrite Hcap.
  destruct (Nat.eqb_spec R 0) as [-> | HR].
  { simpl in Hcount. constructor; auto; lia. }
  specialize (Hstart HR).
  assert (Hend : (start r + count r) mod R = length xs mod R).
  { rewrite Hstart, Nat.Div0.add_mod_idemp_l. f_equal. lia. }
  assert (HendR : length xs mod R < R) by (apply Nat.mod_upper_bound; lia).
  unfold JsArray.assign. rewrite Hend, Hlen.
  destruct (Nat.ltb_spec (length xs mod R) R) as [_ | ?]; [| lia].
  assert (Hput : forall j, j <= length xs -> length xs - j < R ->
            <[length xs mod R := Some x]> (buffer r) !! (j mod R)
            = if decide (j = length xs) then Some (Some x)
              else buffer r !! (j mod R)).
  { intros j Hj1 Hj2. destruct (decide (j = length xs)) as [-> | Hne].
    - apply list_lookup_insert_eq. lia.
    - apply list_lookup_insert_ne. intros E. symmetry in E. revert E.
      apply mod_apart; lia. }
  assert (Happ : forall j, j <= length xs ->
            (xs ++ [x]) !! j
            = if decide (j = length xs) then Some x else xs !! j).
  { intros j Hj. destruct (decide (j = length xs)) as [-> | Hne].
    - rewrite lookup_app_r by lia. now rewrite Nat.sub_diag.
    - apply lookup_app_l. lia. }
  destruct (Nat.ltb_spec (count r) R) as [Hlt | Hge].
  - constructor; simpl; rewrite ?length_app, ?length_insert; simpl; try lia.
    + intros _. rewrite Hstart. f_equal. lia.
    + intros j Hj. rewrite Hput, Happ by lia.
      destruct (decide (j = length xs)); [reflexivity |].
      apply Hslots. lia.
  - constructor; simpl; rewrite ?length_app, ?length_insert; simpl; try lia.
    + intros _. rewrite Hstart, Nat.Div0.add_mod_idemp_l. f_equal. lia.
    + intros j Hj. rewrite Hput, Happ by lia.
      destruct (decide (j = length xs)); [reflexivity |].
      apply Hslots. lia.
Qed.

Lemma tracks_appends (R : nat) xs pre r :
  tracks R pre r -> tracks R (pre ++ xs) (appends xs r).
Proof.
  revert pre r. induction xs as [| x xs IH]; intros pre r H; simpl.
  - now rewrite app_nil_r.
  - replace (pre ++ x :: xs) with ((pre ++ [x]) ++ xs)
      by now rewrite <- app_assoc.
    apply IH. now apply tracks_append.
Qed.

(** A loop over the indices [a .. a+m-1] that reads the values of [xs]
    from [off + a] up to its end collects the suffix of [xs] there. *)
Lemma collect_suffix (f : nat -> list T) xs (off m a : nat) :
  (forall i, a <= i < a + m -> f i = option_list (xs !! (off + i))) ->
  off + a + m = length xs ->
  flat_map f (seq a m) = drop (off + a) xs.
Proof.
  revert a. induction m as [| m IH]; intros a Hf Hlen; simpl.
  - rewrite drop_ge by lia. reflexivity.
  - rewrite Hf by lia.
    destruct (lookup_lt_is_Some_2 xs (off + a)) as [v Hv]; [lia |].
    rewrite Hv. simpl. rewrite (drop_S _ _ _ Hv). f_equal.
    replace (S (off + a)) with (off + S a) by lia.
    apply IH; [intros i Hi; apply Hf; lia | lia].
Qed.

Lemma last_tracks (R : nat) xs r (n : Z) :
  tracks R xs r -> (0 <= n)%Z ->
  fst (last n r) = drop (length xs - Nat.min (Z.to_nat n) (count r)) xs.
Proof.
  intros [Hcap Hlen Hcount Hstart Hslots] Hn. unfold last. simpl.
  set (lo := Z.to_nat (Z.of_nat (count r) - Z.min n (Z.of_nat (count r)))).
  assert (Hlo : lo = count r - Nat.min (Z.to_nat n) (count r)) by lia.
  replace (length xs - Nat.min (Z.to_nat n) (count r))
    with ((length xs - count r) + lo) by lia.
  apply collect_suffix; [| lia].
  intros i Hi. unfold pick, slot. rewrite Hcap.
  destruct (Nat.eqb_spec R 0) as [-> | HR]; [simpl in Hcount; lia |].
  rewrite (Hstart HR), Nat.Div0.add_mod_idemp_l.
  unfold JsArray.read. rewrite Hslots by lia.
  now destruct (xs !! (length xs - count r + i)).
Qed.

End Ring.
End RingFacts.

(** C5.  A ring of capacity [R] to which the payloads [xs] were appended
    holds [size = min R (length xs)] of them, the most recent ones in
    the order of insertion (an append to a full ring overwrites the
    oldest).  For [n >= 0], [last n] returns exactly [min n size]
    payloads, the most recent ones, oldest first, and leaves the ring as
    it is; [last n] with [n >= size] is [last size]; the capacity never
    changes; with [R = 0], [append] does nothing and [last] returns the
    empty list. *)
Theorem ring_last_most_recent {T : Type} (R : nat) (xs : list T) (n : Z) :
  (0 <= n)%Z ->
  let r := RingBuffer.appends xs (RingBuffer.new R) in
  let size := RingBuffer.count r in
  let k := Nat.min (Z.to_nat n) size in
  size = Nat.min R (length xs)
  /\ fst (RingBuffer.last (Z.of_nat size) r) = drop (length xs - R) xs
  /\ fst (RingBuffer.last n r) = drop (length xs - k) xs
  /\ length (fst (RingBuffer.last n r)) = k
  /\ snd (RingBuffer.last n r) = r
  /\ ((Z.of_nat size <= n)%Z ->
      fst (RingBuffer.last n r) = fst (RingBuffer.last (Z.of_nat size) r))
  /\ RingBuffer.capacity r = R
  /\ (R = 0 ->
      (forall x, RingBuffer.append x r = r) /\ fst (RingBuffer.last n r) = []).
Proof.
  intros Hn r size k.
  assert (Htr : tracks R xs r).
  { apply (RingFacts.tracks_appends R xs [] (RingBuffer.new R)).
    apply RingFacts.tracks_new. }
  pose proof (tr_count _ _ _ Htr) as Hsize. fold size in Hsize.
  assert (Hlast : forall m : Z, (0 <= m)%Z ->
            fst (RingBuffer.last m r)
            = drop (length xs - Nat.min (Z.to_nat m) size) xs).
  { intros m Hm. now apply RingFacts.last_tracks with (R := R). }
  assert (Hfull : fst (RingBuffer.last (Z.of_nat size) r)
                  = drop (length xs - R) xs).
  { rewrite Hlast by lia. f_equal. lia. }
  repeat split.
  - exact Hsize.
  - exact Hfull.
  - now apply Hlast.
  - rewrite Hlast by exact Hn. rewrite length_drop. lia.
  - intros Hge. rewrite !Hlast by lia. f_equal. lia.
  - exact (tr_capacity _ _ _ Htr).
  - intros x. unfold RingBuffer.append.
    rewrite (tr_capacity _ _ _ Htr). now subst R.
  - rewrite Hlast by exact Hn. subst R. simpl in Hsize.
    rewrite Hsize, Nat.min_0_r, Nat.sub_0_r. apply drop_all.
Qed.

Lemma ring_last_most_recent_witness :
  (0 <= 2)%Z /\
  fst (RingBuffer.last 2
         (RingBuffer.appends [10; 20; 30; 40] (RingBuffer.new 3)))
  = [30; 40].
Proof.
  split; [lia |].
  exact (proj1 (proj2 (proj2
           (ring_last_most_recent 3 [10; 20; 30; 40] 2%Z ltac:(lia))))).
Defined.

(** ** The bounded queue *)

Module QueueFacts.
Import BoundedQueue.

Section Queue.
Context {T : Type}.
Implicit Types (q : t T) (x : T).

Lemma push_full q x :
  (Z.of_nat (length q) >= capacity q)%Z ->
  pushDropOldest x q = (1, mk (tl (items q) ++ [x]) (capacity q)).
Proof.
  intros H. unfold pushDropOldest, length in *. rewrite Z.geb_leb.
  destruct (Z.leb_spec (capacity q) (Z.of_nat (List.length (items q))));
    [reflexivity | lia].
Qed.

Lemma push_room q x :
  (Z.of_nat (length q) < capacity q)%Z ->
  pushDropOldest x q = (0, mk (items q ++ [x]) (capacity q)).
Proof.
  intros H. unfold pushDropOldest, length in *. rewrite Z.geb_leb.
  destruct (Z.leb_spec (capacity q) (Z.of_nat (List.length (items q))));
    [lia | reflexivity].
Qed.

End Queue.
End QueueFacts.

(** ** Maps in insertion order *)

Module MapFacts.
Import JsMap.

Section Map.
Context {V : Type}.
Implicit Types (m : t V) (k : string) (v : V).

Lemma get_set_eq k v m : get k (set k v m) = Some v.
Proof.
  induction m as [| [k' v'] m IH]; simpl.
  - now rewrite String.eqb_refl.
  - destruct (String.eqb_spec k k') as [-> | Hne]; simpl.
    + now rewrite String.eqb_refl.
    + destruct (String.eqb_spec k k'); [contradiction | exact IH].
Qed.

Lemma get_set_ne k k' v m : k <> k' -> get k' (set k v m) = get k' m.
Proof.
  intros Hne. induction m as [| [k0 v0] m IH]; simpl.
  - destruct (String.eqb_spec k' k); [congruence | reflexivity].
  - destruct (String.eqb_spec k k0) as [-> | Hk]; simpl.
    + destruct (String.eqb_spec k' k0); [congruence | reflexivity].
    + now rewrite IH.
Qed.

Lemma has_keys k m : has k m = true <-> In k (keys m).
Proof.
  unfold has. induction m as [| [k' v'] m IH]; simpl.
  - split; [discriminate | tauto].
  - destruct (String.eqb_spec k k') as [-> | Hne].
    + split; auto.
    + rewrite IH. split; [auto | intros [E | H]; congruence].
Qed.

Lemma has_false_keys k m : has k m = false <-> ~ In k (keys m).
Proof.
  rewrite <- has_keys. destruct (has k m); split; congruence.
Qed.

Lemma get_In k v m : get k m = Some v -> In (k, v) m.
Proof.
  induction m as [| [k' v'] m IH]; simpl; [discriminate |].
  destruct (String.eqb_spec k k') as [-> | Hne].
  - intros [= ->]. now left.
  - intros H. right. now apply IH.
Qed.

Lemma keys_set_present k v m :
  has k m = true -> keys (set k v m) = keys m.
Proof.
  unfold has. induction m as [| [k' v'] m IH]; simpl; [discriminate |].
  destruct (String.eqb_spec k k') as [-> | Hne]; simpl; [reflexivity |].
  intros H. now rewrite IH.
Qed.

Lemma set_fresh k v m : has k m = false -> set k v m = m ++ [(k, v)].
Proof.
  unfold has. induction m as [| [k' v'] m IH]; simpl; [reflexivity |].
  destruct (String.eqb_spec k k') as [-> | Hne]; [discriminate |].
  intros H. now rewrite IH.
Qed.

Lemma set_set k v1 v2 m : set k v2 (set k v1 m) = set k v2 m.
Proof.
  induction m as [| [k' v'] m IH]; simpl.
  - now rewrite String.eqb_refl.
  - destruct (String.eqb_spec k k') as [-> | Hne]; simpl.
    + now rewrite String.eqb_refl.
    + destruct (String.eqb_spec k k'); [contradiction | now rewrite IH].
Qed.

Lemma Forall_set (P : string * V -> Prop) k v m :
  Forall P m -> P (k, v) -> Forall P (set k v m).
Proof.
  intros Hm Hkv. induction Hm as [| [k' v'] m Hx Hm IH]; simpl.
  - now constructor.
  - destruct (String.eqb_spec k k') as [-> | Hne]; constructor; auto.
Qed.

Lemma Forall_delete (P : string * V -> Prop) k m :
  Forall P m -> Forall P (snd (delete k m)).
Proof.
  intros Hm. simpl. induction Hm as [| e m Hx Hm IH]; simpl.
  - constructor.
  - destruct (negb (String.eqb k (fst e))); [constructor |]; auto.
Qed.

Lemma keys_delete k m :
  keys (snd (delete k m))
  = List.filter (fun k' => negb (String.eqb k k')) (keys m).
Proof.
  simpl. induction m as [| e m IH]; simpl; [reflexivity |].
  destruct (negb (String.eqb k (fst e))); simpl; now rewrite IH.
Qed.

Lemma get_delete_eq k m : get k (snd (delete k m)) = None.
Proof.
  simpl. induction m as [| [k' v'] m IH]; simpl; [reflexivity |].
  destruct (String.eqb_spec k k') as [-> | Hne]; simpl; [exact IH |].
  destruct (String.eqb_spec k k'); [contradiction | exact IH].
Qed.

Lemma delete_absent k m : has k m = false -> snd (delete k m) = m.
Proof.
  unfold has. simpl. induction m as [| [k' v'] m IH]; simpl; [reflexivity |].
  destruct (String.eqb_spec k k') as [-> | Hne]; [discriminate |].
  intros H. simpl. now rewrite IH.
Qed.

Lemma delete_set_fresh k v m :
  has k m = false -> snd (delete k (set k v m)) = m.
Proof.
  intros H. rewrite (set_fresh _ _ _ H). simpl.
  rewrite List.filter_app. simpl. rewrite String.eqb_refl. simpl.
  rewrite app_nil_r. exact (delete_absent k m H).
Qed.

Lemma NoDup_keys_set k v m :
  List.NoDup (keys m) -> List.NoDup (keys (set k v m)).
Proof.
  intros Hm. destruct (has k m) eqn:Hk.
  - now rewrite keys_set_present.
  - rewrite (set_fresh _ _ _ Hk). unfold keys. rewrite map_app. simpl.
    apply has_false_keys in Hk.
    apply List.NoDup_app; [exact Hm | |].
    + constructor; [intros [] | constructor].
    + intros x Hx [<- | []]. now apply Hk.
Qed.

Lemma NoDup_keys_delete k m :
  List.NoDup (keys m) -> List.NoDup (keys (snd (delete k m))).
Proof.
  intros Hm. rewrite keys_delete. now apply List.NoDup_filter.
Qed.

Lemma select_none {B : Type} (f : string * V -> list B) k m :
  ~ In k (keys m) ->
  flat_map (fun e => if String.eqb (fst e) k then f e else []) m = [].
Proof.
  induction m as [| [k' v'] m IH]; simpl; [reflexivity |].
  intros Hnotin. destruct (String.eqb_spec k' k) as [-> | Hne].
  - exfalso. apply Hnotin. now left.
  - apply IH. intros Hin. apply Hnotin. now right.
Qed.

(** Under distinct keys a key that is there selects one entry. *)
Lemma select_one {B : Type} (f : string * V -> list B) k m :
  List.NoDup (keys m) -> has k m = true ->
  exists v, get k m = Some v /\
    flat_map (fun e => if String.eqb (fst e) k then f e else []) m
    = f (k, v).
Proof.
  unfold has. induction m as [| [k' v'] m IH]; simpl; [discriminate |].
  intros Hnd Hk. apply List.NoDup_cons_iff in Hnd as [Hnotin Hnd].
  rewrite (String.eqb_sym k' k).
  destruct (String.eqb_spec k k') as [-> | Hne].
  - exists v'. split; [reflexivity |].
    rewrite (select_none f k' m Hnotin). apply app_nil_r.
  - destruct (IH Hnd Hk) as [v [Hg Hf]]. exists v. split; [exact Hg |].
    exact Hf.
Qed.

End Map.
End MapFacts.

(** ** One enqueue, one fan-out, one replay *)

Module DeliveryFacts.

(** The counters after [n] enqueues on empty queues of capacity [Q]. *)
Lemma account_fold {A : Type} (Q : Z) (l : list A) (st : TopicStats.t) :
  fold_left (fun st _ => account Q st) l st
  = TopicStats.mk (TopicStats.messages st) (TopicStats.subscribers st)
      (TopicStats.delivered st + length l)
      (TopicStats.dropped st + if (0 >=? Q)%Z then length l else 0).
Proof.
  revert st. induction l as [| a l IH]; intros [m s d x]; simpl.
  - destruct (0 >=? Q)%Z; simpl; f_equal; lia.
  - rewrite IH. unfold account.
    destruct (0 >=? Q)%Z; simpl; f_equal; lia.
Qed.

(** On a queue that is empty, [enqueue] emits the one event and hands the
    subscriber back as it was. *)
Lemma enqueue_new now reg t m sub acc (Q : Z) :
  queue sub = BoundedQueue.new Q ->
  enqueue now reg t m sub acc
  = (sub, (account Q (fst acc),
           snd acc ++ [event_sent now reg (socket sub) t m])).
Proof.
  intros Hq. destruct sub as [s c q]. simpl in Hq. subst q.
  unfold enqueue, account. simpl queue.
  unfold BoundedQueue.pushDropOldest, BoundedQueue.new. cbn.
  change (Z.of_nat 0) with 0%Z.
  destruct (0 >=? Q)%Z; reflexivity.
Qed.

Lemma fanout_ok now reg t m (Q : Z) subs acc :
  Forall (sub_ok Q) subs ->
  fanout now reg t m subs acc
  = (subs,
     (fold_left (fun st _ => account Q st) subs (fst acc),
      snd acc ++ map (fun e => event_sent now reg (fst e) t m) subs)).
Proof.
  intros H. revert acc.
  induction H as [| [k sub] subs [Hk Hq] Hsubs IH]; intros acc; simpl.
  - rewrite app_nil_r. now destruct acc.
  - simpl in Hk, Hq. rewrite (enqueue_new _ _ _ _ _ _ Q Hq), IH. simpl.
    rewrite Hk, <- app_assoc. reflexivity.
Qed.

Lemma replay_new now reg t toSend sub acc (Q : Z) :
  queue sub = BoundedQueue.new Q ->
  replay now reg t toSend sub acc
  = (sub,
     (fold_left (fun st _ => account Q st) toSend (fst acc),
      snd acc ++ map (event_sent now reg (socket sub) t) toSend)).
Proof.
  intros Hq. unfold replay. revert acc.
  induction toSend as [| m toSend IH]; intros acc; simpl.
  - rewrite app_nil_r. now destruct acc.
  - rewrite (enqueue_new _ _ _ _ _ _ Q Hq). simpl. rewrite IH. simpl.
    rewrite <- app_assoc. reflexivity.
Qed.

End DeliveryFacts.

(** ** The operations of the broker, one by one *)

Module BrokerFacts.
Import MapFacts DeliveryFacts.

Lemma Inv_topics (w w' : World) :
  opts w' = opts w ->
  Forall (topic_ok (subscriberQueueSize (opts w))) (topics w') ->
  Inv w'.
Proof. intros Ho H. unfold Inv. now rewrite Ho. Qed.

Lemma Inv_get (w : World) t topic :
  Inv w -> JsMap.get t (topics w) = Some topic ->
  topic_ok (subscriberQueueSize (opts w)) (t, topic).
Proof.
  intros HI Hg. apply get_In in Hg.
  exact (proj1 (List.Forall_forall _ _) HI _ Hg).
Qed.

(** The loop of [deleteTopic] only writes on the wire. *)
Lemma notify_all (info : ServerMessage) (subs : list Subscriber) (w : World) :
  fold_left (fun w sub => disconnect (socket sub) (emit (socket sub) info w))
    subs w
  = with_wire
      (wire w ++
       flat_map
         (fun sub =>
            [ {| to := socket sub; call := Emit info;
                 registry := JsMap.keys (topics w) |};
              {| to := socket sub; call := Disconnect;
                 registry := JsMap.keys (topics w) |} ]) subs) w.
Proof.
  revert w. induction subs as [| sub subs IH]; intros w; simpl.
  - rewrite app_nil_r. now destruct w.
  - rewrite IH. unfold with_wire, disconnect, emit, with_wire. simpl.
    now rewrite <- !app_assoc.
Qed.

Lemma deleteTopic_found (w : World) t topic :
  JsMap.get t (topics w) = Some topic ->
  deleteTopic t w
  = (DeleteOk,
     with_topics (snd (JsMap.delete t (topics w)))
       (with_wire
          (wire w ++
           flat_map (notice (now w) (JsMap.keys (topics w)) t)
             (JsMap.values (subscribers topic))) w)).
Proof.
  intros Hg. unfold deleteTopic. rewrite Hg, notify_all. reflexivity.
Qed.

Lemma subscribe_found (w : World) s t c n r topic :
  JsMap.get t (topics w) = Some topic ->
  let sub := {| socket := s; clientId := c;
                queue := BoundedQueue.new (subscriberQueueSize (opts w)) |} in
  let subs := JsMap.set s sub (subscribers topic) in
  let toSend := replayed n (ring topic) in
  let reg := JsMap.keys (topics w) in
  subscribe s t c n r w
  = with_wire
      (wire w ++ ack_sent (now w) reg s r t
                 :: map (event_sent (now w) reg s t) toSend)
      (with_topics
         (JsMap.set t
            {| name := name topic; subscribers := subs; ring := ring topic;
               stats :=
                 fold_left
                   (fun st _ => account (subscriberQueueSize (opts w)) st)
                   toSend
                   (set_subscribers (JsMap.size subs) (stats topic)) |}
            (topics w)) w).
Proof.
  intros Hg sub subs toSend reg. unfold subscribe. rewrite Hg.
  fold sub. fold subs. fold reg.
  assert (Hrep :
    match n with
    | Some n0 =>
        if (0 <? n0)%Z
        then replay (now w) reg t (fst (RingBuffer.last n0 (ring topic))) sub
               (set_subscribers (JsMap.size subs) (stats topic),
                [ack_sent (now w) reg s r t])
        else (sub, (set_subscribers (JsMap.size subs) (stats topic),
                    [ack_sent (now w) reg s r t]))
    | None => (sub, (set_subscribers (JsMap.size subs) (stats topic),
                     [ack_sent (now w) reg s r t]))
    end
    = (sub,
       (fold_left (fun st _ => account (subscriberQueueSize (opts w)) st)
          toSend (set_subscribers (JsMap.size subs) (stats topic)),
        ack_sent (now w) reg s r t
        :: map (event_sent (now w) reg s t) toSend))).
  { unfold toSend, replayed. destruct n as [n0 |]; [| reflexivity].
    destruct (0 <? n0)%Z; [| reflexivity].
    now rewrite (replay_new _ _ _ _ _ _ (subscriberQueueSize (opts w))). }
  unfold ack_sent in Hrep at 1 2 3. rewrite Hrep.
  unfold subs at 1. rewrite set_set. reflexivity.
Qed.

Lemma publish_found (w : World) t m r topic :
  Inv w -> JsMap.get t (topics w) = Some topic ->
  publish t m r w
  = (PublishOk (toISOString (now w)),
     with_wire
       (wire w ++
        map (fun e => event_sent (now w) (JsMap.keys (topics w)) (fst e) t m)
          (subscribers topic))
       (with_topics
          (JsMap.set t
             {| name := name topic; subscribers := subscribers topic;
                ring := RingBuffer.append m (ring topic);
                stats :=
                  fold_left
                    (fun st _ => account (subscriberQueueSize (opts w)) st)
                    (subscribers topic) (incr_messages (stats topic)) |}
             (topics w)) w)).
Proof.
  intros HI Hg. unfold publish. rewrite Hg.
  destruct (Inv_get _ _ _ HI Hg) as [_ Hsubs]. simpl in Hsubs.
  now rewrite (fanout_ok _ _ _ _ _ _ _ Hsubs).
Qed.

Lemma heartbeat_wire (sockets : list SocketId) (w : World) :
  heartbeat sockets w
  = with_wire
      (wire w ++
       map (fun s =>
              {| to := s;
                 call := Emit (InfoMessage None (Some (toISOString (now w)))
                                 None "ping"%string);
                 registry := JsMap.keys (topics w) |}) sockets) w.
Proof.
  unfold heartbeat.
  generalize (InfoMessage None (Some (toISOString (now w))) None
                "ping"%string) as msg.
  intros msg. revert w. induction sockets as [| s ss IH]; intros w; simpl.
  - rewrite app_nil_r. now destruct w.
  - rewrite IH. unfold emit, with_wire. simpl. now rewrite <- app_assoc.
Qed.

End BrokerFacts.

(** ** The tables between two operations *)

Module InvFacts.
Import MapFacts DeliveryFacts BrokerFacts.

Lemma Inv_init opts now : Inv (init opts now).
Proof. constructor. Qed.

Lemma Inv_with_wire l w : Inv w -> Inv (with_wire l w).
Proof. exact (fun H => H). Qed.

Lemma Inv_emit s m w : Inv w -> Inv (emit s m w).
Proof. exact (fun H => H). Qed.

Lemma Inv_createTopic t w : Inv w -> Inv (snd (createTopic t w)).
Proof.
  intros HI. unfold createTopic.
  destruct (JsMap.has t (topics w)); [exact HI |].
  apply (Inv_topics w); [reflexivity |]. simpl.
  apply Forall_set; [exact HI |].
  split; simpl; constructor.
Qed.

Lemma Inv_deleteTopic t w : Inv w -> Inv (snd (deleteTopic t w)).
Proof.
  intros HI. destruct (JsMap.get t (topics w)) as [topic |] eqn:Hg.
  - rewrite (deleteTopic_found _ _ _ Hg).
    apply (Inv_topics w); [reflexivity |].
    apply (Forall_delete _ t (topics w)). exact HI.
  - unfold deleteTopic. now rewrite Hg.
Qed.

Lemma Inv_subscribe s t c n r w : Inv w -> Inv (subscribe s t c n r w).
Proof.
  intros HI. destruct (JsMap.get t (topics w)) as [topic |] eqn:Hg.
  - rewrite (subscribe_found _ _ _ _ _ _ _ Hg).
    apply (Inv_topics w); [reflexivity |]. simpl.
    destruct (Inv_get _ _ _ HI Hg) as [Hnd Hsubs]. simpl in Hnd, Hsubs.
    apply Forall_set; [exact HI |].
    split; simpl.
    + now apply NoDup_keys_set.
    + apply Forall_set; [exact Hsubs |]. split; reflexivity.
  - unfold subscribe. rewrite Hg. now apply Inv_emit.
Qed.

Lemma Inv_unsubscribe s t c r w : Inv w -> Inv (unsubscribe s t c r w).
Proof.
  intros HI. unfold unsubscribe.
  destruct (JsMap.get t (topics w)) as [topic |] eqn:Hg.
  - apply Inv_emit. apply (Inv_topics w); [reflexivity |]. simpl topics.
    destruct (Inv_get _ _ _ HI Hg) as [Hnd Hsubs]. simpl in Hnd, Hsubs.
    apply Forall_set; [exact HI |].
    split; cbn [snd subscribers].
    + now apply NoDup_keys_delete.
    + now apply Forall_delete.
  - now apply Inv_emit.
Qed.

Lemma Inv_publish t m r w : Inv w -> Inv (snd (publish t m r w)).
Proof.
  intros HI. destruct (JsMap.get t (topics w)) as [topic |] eqn:Hg.
  - rewrite (publish_found _ _ _ _ _ HI Hg).
    apply (Inv_topics w); [reflexivity |]. simpl.
    apply Forall_set; [exact HI |].
    exact (Inv_get _ _ _ HI Hg).
  - unfold publish. now rewrite Hg.
Qed.

Lemma Inv_handleSocketDisconnect s w :
  Inv w -> Inv (handleSocketDisconnect s w).
Proof.
  intros HI. apply (Inv_topics w); [reflexivity |]. simpl.
  apply List.Forall_map.
  refine (List.Forall_impl _ _ HI). intros [k topic] [Hnd Hsubs].
  simpl in Hnd, Hsubs. cbn [snd fst JsMap.delete].
  destruct (JsMap.has s (subscribers topic)); [| now split].
  split; cbn [snd subscribers].
  - exact (NoDup_keys_delete s _ Hnd).
  - exact (Forall_delete _ s _ Hsubs).
Qed.

Lemma Inv_onMessage s msg w : Inv w -> Inv (onMessage s msg w).
Proof.
  intros HI. destruct msg as [r t c n | r t c | r t m | r | r]; simpl.
  - now apply Inv_subscribe.
  - now apply Inv_unsubscribe.
  - pose proof (Inv_publish t m r w HI) as HP.
    destruct (publish t m r w) as [[ts |] w']; now apply Inv_emit.
  - now apply Inv_emit.
  - now apply Inv_emit.
Qed.

Lemma Inv_step w op : Inv w -> Inv (step w op).
Proof.
  intros HI. destruct op; simpl.
  - now apply Inv_createTopic.
  - now apply Inv_deleteTopic.
  - now apply Inv_subscribe.
  - now apply Inv_unsubscribe.
  - now apply Inv_publish.
  - now apply Inv_handleSocketDisconnect.
  - now apply Inv_onMessage.
  - rewrite heartbeat_wire. now apply Inv_with_wire.
  - exact HI.
Qed.

Lemma Inv_run ops w : Inv w -> Inv (run ops w).
Proof.
  revert w. induction ops as [| op ops IH]; intros w HI; simpl.
  - exact HI.
  - apply IH. now apply Inv_step.
Qed.

Lemma opts_step w op : opts (step w op) = opts w.
Proof.
  destruct op as [t | t | s t c n r | s t c r | t m r | s | s msg | ss | z];
    simpl; try reflexivity.
  - unfold createTopic. now destruct (JsMap.has t (topics w)).
  - destruct (JsMap.get t (topics w)) as [topic |] eqn:Hg.
    + now rewrite (deleteTopic_found _ _ _ Hg).
    + unfold deleteTopic. now rewrite Hg.
  - destruct (JsMap.get t (topics w)) as [topic |] eqn:Hg.
    + now rewrite (subscribe_found _ _ _ _ _ _ _ Hg).
    + unfold subscribe. now rewrite Hg.
  - unfold unsubscribe. now destruct (JsMap.get t (topics w)).
  - unfold publish. destruct (JsMap.get t (topics w)); [| reflexivity].
    now destruct (fanout _ _ _ _ _ _) as [? [? ?]].
  - destruct msg as [r t c n | r t c | r t m | r | r]; simpl;
      try reflexivity.
    + destruct (JsMap.get t (topics w)) as [topic |] eqn:Hg.
      * now rewrite (subscribe_found _ _ _ _ _ _ _ Hg).
      * unfold subscribe. now rewrite Hg.
    + unfold unsubscribe. now destruct (JsMap.get t (topics w)).
    + unfold publish. destruct (JsMap.get t (topics w)); [| reflexivity].
      now destruct (fanout _ _ _ _ _ _) as [? [? ?]].
  - now rewrite heartbeat_wire.
Qed.

Lemma opts_run ops w : opts (run ops w) = opts w.
Proof.
  revert w. induction ops as [| op ops IH]; intros w; simpl.
  - reflexivity.
  - now rewrite IH, opts_step.
Qed.

(** Every record is an entry of the table of some topic. *)
Lemma Inv_all_subscribers w :
  Inv w ->
  Forall (fun s => queue s = BoundedQueue.new (subscriberQueueSize (opts w)))
    (all_subscribers w).
Proof.
  intros HI. unfold all_subscribers. apply List.Forall_flat_map.
  refine (List.Forall_impl _ _ HI). intros [k topic] [_ Hsubs].
  simpl in *. unfold JsMap.values. apply List.Forall_map.
  refine (List.Forall_impl _ _ Hsubs). now intros [k' sub] [_ Hq].
Qed.

End InvFacts.

(** C3.  After any sequence of operations on a new broker (calls of its
    methods, messages on sockets, heartbeats) the outbound queue of every
    subscriber of every topic is empty: each enqueue is followed at once by
    a drain that takes the one item queued. *)
Theorem queues_empty_between_operations
    (opts : BrokerOptions) (now : Z) (ops : list Op) :
  queues_empty (run ops (init opts now)).
Proof.
  pose proof (InvFacts.Inv_all_subscribers _
                (InvFacts.Inv_run ops _ (InvFacts.Inv_init opts now))) as H.
  refine (List.Forall_impl _ _ H). intros s Hq.
  unfold queue_empty. now rewrite Hq.
Qed.

(** C4.  Let the configured capacity [Q] of the outbound queues be at
    least 0.  After any sequence of operations on a new broker every
    outbound queue has capacity [Q] and a length between 0 and [Q].  A push
    on a queue of capacity [Q] whose length is [Q] reports [dropped = 1]
    and leaves the queue without its head and with the new element at the
    end (for [Q > 0] there is a head, and it is the element discarded; for
    [Q = 0] the queue is empty and [shift] finds nothing to remove); a push
    on a queue whose length is below [Q] reports [dropped = 0] and appends
    the element. *)
Theorem queue_length_within_capacity (Q : Z) :
  (0 <= Q)%Z ->
  (forall opts now ops,
      subscriberQueueSize opts = Q ->
      Forall (queue_within Q) (all_subscribers (run ops (init opts now))))
  /\ (forall (T : Type) (q : BoundedQueue.t T) (x : T),
         BoundedQueue.capacity q = Q ->
         Z.of_nat (BoundedQueue.length q) = Q ->
         BoundedQueue.pushDropOldest x q
         = (1, BoundedQueue.mk (tl (BoundedQueue.items q) ++ [x]) Q)
         /\ ((0 < Q)%Z ->
             exists head rest,
               BoundedQueue.items q = head :: rest /\
               BoundedQueue.items (snd (BoundedQueue.pushDropOldest x q))
               = rest ++ [x]))
  /\ (forall (T : Type) (q : BoundedQueue.t T) (x : T),
         BoundedQueue.capacity q = Q ->
         (Z.of_nat (BoundedQueue.length q) < Q)%Z ->
         BoundedQueue.pushDropOldest x q
         = (0, BoundedQueue.mk (BoundedQueue.items q ++ [x]) Q)).
Proof.
  intros HQ. split; [| split].
  - intros opts now ops Hopts.
    pose proof (InvFacts.Inv_all_subscribers _
                  (InvFacts.Inv_run ops _ (InvFacts.Inv_init opts now))) as H.
    rewrite InvFacts.opts_run in H. simpl in H. rewrite Hopts in H.
    refine (List.Forall_impl _ _ H). intros s Hq.
    unfold queue_within. rewrite Hq. cbn.
    change (Z.of_nat 0) with 0%Z. lia.
  - intros T q x Hcap Hlen.
    assert (Hpush : BoundedQueue.pushDropOldest x q
                    = (1, BoundedQueue.mk (tl (BoundedQueue.items q) ++ [x]) Q)).
    { rewrite QueueFacts.push_full by lia. now rewrite Hcap. }
    split; [exact Hpush |].
    intros Hpos. rewrite Hpush. unfold BoundedQueue.length in Hlen.
    destruct (BoundedQueue.items q) as [| head rest]; simpl in *; [lia |].
    now exists head, rest.
  - intros T q x Hcap Hlen.
    rewrite QueueFacts.push_room by lia. now rewrite Hcap.
Qed.

Lemma queue_length_within_capacity_witness :
  (0 <= 2)%Z /\
  BoundedQueue.pushDropOldest 7 (BoundedQueue.mk [5; 6] 2%Z)
  = (1, BoundedQueue.mk [6; 7] 2%Z).
Proof.
  split; [lia |].
  exact (proj1 (proj1 (proj2 (queue_length_within_capacity 2%Z ltac:(lia)))
                  nat (BoundedQueue.mk [5; 6] 2%Z) 7 eq_refl eq_refl)).
Defined.

(** C9.  A publish on a topic that is not in the registry returns the
    not-found result and leaves the broker as it is: the registry with all
    its counters, rings and queues is unchanged, and nothing is written to
    a socket by the broker.  The handler of the publishing socket then
    emits one [TOPIC_NOT_FOUND] error to that socket, with the request id
    of the publish, and changes nothing else. *)
Theorem publish_absent_topic (w : World) (s : SocketId) (t : string)
    (p : PublishPayload) (r : option UUID) :
  JsMap.get t (topics w) = None ->
  publish t p r w = (PublishNotFound, w)
  /\ topics (onMessage s (PublishMessage r t p) w) = topics w
  /\ getStats (onMessage s (PublishMessage r t p) w) = getStats w
  /\ all_subscribers (onMessage s (PublishMessage r t p) w)
     = all_subscribers w
  /\ wire (onMessage s (PublishMessage r t p) w)
     = wire w ++
       [ {| to := s;
            call := Emit (ErrorMessage r (Some (toISOString (now w)))
                            TOPIC_NOT_FOUND (not_found_message t));
            registry := JsMap.keys (topics w) |} ].
Proof.
  intros Hg.
  assert (Hp : publish t p r w = (PublishNotFound, w)).
  { unfold publish. now rewrite Hg. }
  split; [exact Hp |].
  unfold onMessage. rewrite Hp. repeat split.
Qed.

Lemma publish_absent_topic_witness :
  JsMap.get "missing"%string (topics (init server_opts 0%Z)) = None
  /\ publish "missing"%string {| id := "x"%string; payload := JNull |}
       (Some "ee"%string) (init server_opts 0%Z)
     = (PublishNotFound, init server_opts 0%Z).
Proof.
  split; [reflexivity |].
  exact (proj1 (publish_absent_topic (init server_opts 0%Z) "se"%string
                  "missing"%string {| id := "x"%string; payload := JNull |}
                  (Some "ee"%string) eq_refl)).
Defined.

(** C8, as the code has it.  If the socket [c] has no record in the table
    of topic [t], then [subscribe] on [t] followed by [unsubscribe] on [t],
    both from [c], leaves the table of [t] exactly as it was before the
    [subscribe] (same records, same order). *)
Theorem subscribe_unsubscribe_restores_table (w : World) (c : SocketId)
    (t cid cid' : string) (n : option Z) (r r' : option UUID)
    (topic : Topic) :
  JsMap.get t (topics w) = Some topic ->
  JsMap.has c (subscribers topic) = false ->
  exists topic',
    JsMap.get t (topics (unsubscribe c t cid' r' (subscribe c t cid n r w)))
    = Some topic'
    /\ subscribers topic' = subscribers topic.
Proof.
  intros Hg Hfresh.
  rewrite (BrokerFacts.subscribe_found _ _ _ _ _ _ _ Hg).
  unfold unsubscribe. cbn [topics with_wire with_topics].
  rewrite MapFacts.get_set_eq. cbn [topics emit with_wire with_topics].
  rewrite MapFacts.get_set_eq. eexists. split; [reflexivity |].
  cbn [subscribers]. now apply MapFacts.delete_set_fresh.
Qed.

Lemma subscribe_unsubscribe_restores_table_witness :
  exists topic,
    JsMap.get "t"%string (topics sample) = Some topic
    /\ JsMap.has "c"%string (subscribers topic) = false
    /\ exists topic',
         JsMap.get "t"%string
           (topics (unsubscribe "c"%string "t"%string "carol"%string None
                      (subscribe "c"%string "t"%string "carol"%string
                         (Some 2%Z) (Some "r"%string) sample)))
         = Some topic'
         /\ subscribers topic' = subscribers topic.
Proof.
  eexists. split; [vm_compute; reflexivity |]. split; [reflexivity |].
  apply (subscribe_unsubscribe_restores_table sample "c"%string "t"%string
           "carol"%string "carol"%string (Some 2%Z) (Some "r"%string) None);
    reflexivity.
Defined.

(** C8 as stated fails for a socket that is subscribed already: the
    second [subscribe] replaces its record and the [unsubscribe] removes
    it, so the table that held [b] is empty afterwards. *)
Lemma resubscribe_unsubscribe_loses_record :
  exists topic topic',
    JsMap.get "t"%string (topics sample) = Some topic
    /\ JsMap.get "t"%string
         (topics (unsubscribe "b"%string "t"%string "bob"%string None
                    (subscribe "b"%string "t"%string "bob"%string None None
                       sample)))
       = Some topic'
    /\ JsMap.keys (subscribers topic) = ["b"%string]
    /\ subscribers topic' = []
    /\ subscribers topic' <> subscribers topic.
Proof.
  do 2 eexists. split; [vm_compute; reflexivity |].
  split; [vm_compute; reflexivity |].
  split; [reflexivity |]. split; [reflexivity |]. discriminate.
Qed.

(** C10.  If the socket [c] has a record in the table of topic [t], a
    further [subscribe] from [c] puts in its place (same position in the
    table) a new record with the new client id and a new empty queue.
    Whatever the old queue still held is neither emitted nor counted: the
    wire gets the [ack] and the replayed events only, and [delivered] and
    [dropped] grow by the replay only, so they are unchanged when nothing
    is replayed. *)
Theorem resubscribe_replaces_record (w : World) (c : SocketId)
    (t cid' : string) (n : option Z) (r : option UUID)
    (topic : Topic) (old : Subscriber) :
  JsMap.get t (topics w) = Some topic ->
  JsMap.get c (subscribers topic) = Some old ->
  let Q := subscriberQueueSize (opts w) in
  let toSend := replayed n (ring topic) in
  let w' := subscribe c t cid' n r w in
  exists topic',
    JsMap.get t (topics w') = Some topic'
    /\ JsMap.get c (subscribers topic')
       = Some {| socket := c; clientId := cid';
                 queue := BoundedQueue.new Q |}
    /\ JsMap.keys (subscribers topic') = JsMap.keys (subscribers topic)
    /\ TopicStats.delivered (stats topic')
       = TopicStats.delivered (stats topic) + length toSend
    /\ TopicStats.dropped (stats topic')
       = TopicStats.dropped (stats topic)
         + (if (0 >=? Q)%Z then length toSend else 0)
    /\ wire w'
       = wire w ++
         ack_sent (now w) (JsMap.keys (topics w)) c r t
         :: map (event_sent (now w) (JsMap.keys (topics w)) c t) toSend.
Proof.
  intros Hg Hold Q toSend w'. unfold w'.
  rewrite (BrokerFacts.subscribe_found _ _ _ _ _ _ _ Hg).
  cbn [topics wire with_wire with_topics].
  rewrite MapFacts.get_set_eq. eexists. split; [reflexivity |].
  cbn [subscribers stats]. rewrite DeliveryFacts.account_fold.
  repeat split.
  - apply MapFacts.get_set_eq.
  - apply MapFacts.keys_set_present. unfold JsMap.has. now rewrite Hold.
Qed.

Lemma resubscribe_replaces_record_witness :
  exists topic old topic',
    JsMap.get "t"%string (topics sample_backlog) = Some topic
    /\ JsMap.get "b"%string (subscribers topic) = Some old
    /\ BoundedQueue.length (queue old) = 1
    /\ JsMap.get "t"%string
         (topics (subscribe "b"%string "t"%string "rob"%string None None
                    sample_backlog)) = Some topic'
    /\ JsMap.get "b"%string (subscribers topic')
       = Some {| socket := "b"%string; clientId := "rob"%string;
                 queue := BoundedQueue.new 512%Z |}
    /\ TopicStats.delivered (stats topic')
       = TopicStats.delivered (stats topic)
    /\ TopicStats.dropped (stats topic') = TopicStats.dropped (stats topic).
Proof.
  do 2 eexists.
  destruct (resubscribe_replaces_record sample_backlog "b"%string "t"%string
              "rob"%string None None _ _ eq_refl eq_refl)
    as [topic' [H1 [H2 [_ [H4 [H5 _]]]]]].
  exists topic'. repeat split; [exact H1 | exact H2 | |].
  - rewrite H4. reflexivity.
  - rewrite H5. reflexivity.
Defined.

(** C1, as the code has it.  For a topic [t] that is in the registry,
    [deleteTopic t] succeeds.  It takes the subscribers the topic has at
    the call and, for each of them in the order of the table, emits a
    [topic_deleted] info message on its socket and closes the socket; the
    topic is in the registry while all this happens.  The topic is removed
    from the registry after the last subscriber was notified, so that it
    is absent when [deleteTopic] returns. *)
Theorem deleteTopic_notifies_then_removes (w : World) (t : string)
    (topic : Topic) :
  JsMap.get t (topics w) = Some topic ->
  let reg := JsMap.keys (topics w) in
  let w' := snd (deleteTopic t w) in
  fst (deleteTopic t w) = DeleteOk
  /\ In t reg
  /\ wire w'
     = wire w ++
       flat_map (notice (now w) reg t) (JsMap.values (subscribers topic))
  /\ topics w' = snd (JsMap.delete t (topics w))
  /\ JsMap.get t (topics w') = None.
Proof.
  intros Hg reg w'. unfold w'.
  rewrite (BrokerFacts.deleteTopic_found _ _ _ Hg).
  cbn [fst snd topics wire with_wire with_topics]. repeat split.
  - apply MapFacts.has_keys. unfold JsMap.has. now rewrite Hg.
  - apply MapFacts.get_delete_eq.
Qed.

Lemma deleteTopic_notifies_then_removes_witness :
  exists topic,
    JsMap.get "t"%string (topics sample) = Some topic
    /\ fst (deleteTopic "t"%string sample) = DeleteOk
    /\ JsMap.get "t"%string (topics (snd (deleteTopic "t"%string sample)))
       = None.
Proof.
  eexists. split; [vm_compute; reflexivity |].
  destruct (deleteTopic_notifies_then_removes sample "t"%string _ eq_refl)
    as [H1 [_ [_ [_ H5]]]].
  split; [exact H1 | exact H5].
Defined.

(** C1 as stated fails: when [deleteTopic] emits its first
    [topic_deleted] notice (the first call on a socket that it makes), the
    topic is still in the registry. *)
Lemma deleteTopic_notice_sees_topic :
  exists x rest,
    wire (snd (deleteTopic "t"%string sample)) = wire sample ++ x :: rest
    /\ to x = "b"%string
    /\ call x
       = Emit (InfoMessage None (Some (toISOString 0%Z)) (Some "t"%string)
                 "topic_deleted"%string)
    /\ In "t"%string (registry x).
Proof.
  do 2 eexists. split; [vm_compute; reflexivity |].
  split; [reflexivity |]. split; [reflexivity |]. now left.
Qed.

(** ** A burst of publishes *)

Module BurstFacts.
Import MapFacts DeliveryFacts BrokerFacts InvFacts.

Lemma get_getStats (w : World) t :
  JsMap.get t (getStats w)
  = option_map
      (fun topic =>
         set_subscribers (JsMap.size (subscribers topic)) (stats topic))
      (JsMap.get t (topics w)).
Proof.
  unfold getStats. induction (topics w) as [| [k topic] l IH]; simpl.
  - reflexivity.
  - destruct (String.eqb t k); [reflexivity | exact IH].
Qed.

Lemma replayed_new (n : option Z) (R : nat) :
  replayed n (RingBuffer.new R) = [].
Proof.
  destruct n as [n |]; simpl; [| reflexivity].
  now destruct (0 <? n)%Z.
Qed.

Lemma publish_all_found (t : string) ms (w : World) (topic : Topic) :
  Inv w -> JsMap.get t (topics w) = Some topic ->
  exists topic',
    JsMap.get t (topics (publish_all t ms w)) = Some topic'
    /\ subscribers topic' = subscribers topic
    /\ stats topic'
       = TopicStats.mk
           (TopicStats.messages (stats topic) + length ms)
           (TopicStats.subscribers (stats topic))
           (TopicStats.delivered (stats topic)
            + length ms * length (subscribers topic))
           (TopicStats.dropped (stats topic)
            + if (0 >=? subscriberQueueSize (opts w))%Z
              then length ms * length (subscribers topic) else 0).
Proof.
  revert w topic. induction ms as [| [m r] ms IH]; intros w topic HI Hg.
  - exists topic. split; [exact Hg |]. split; [reflexivity |].
    destruct (stats topic) as [a b c d]. simpl.
    destruct (0 >=? _)%Z; f_equal; lia.
  - unfold publish_all. simpl fold_left.
    pose proof (Inv_publish t m r w HI) as HI'.
    pose proof (opts_step w (OpPublish t m r)) as Ho. simpl in Ho.
    rewrite (publish_found _ _ _ _ _ HI Hg) in *. cbn [snd] in *.
    match goal with
    | |- context [fold_left _ ms ?w1] =>
        destruct (IH w1 _ HI' (get_set_eq _ _ _)) as [topic' [H1 [H2 H3]]]
    end.
    exists topic'. split; [exact H1 |]. split; [exact H2 |].
    rewrite H3. cbn [subscribers stats]. rewrite account_fold.
    cbn [opts with_wire with_topics].
    destruct (stats topic) as [a b c d]. simpl.
    destruct (0 >=? _)%Z; f_equal; lia.
Qed.

End BurstFacts.

(** C2, as the code has it.  On a running broker whose queues have the
    capacity 512, create a topic that is not there yet, subscribe one
    socket to it and publish 1200 messages on it.  Then the stats of the
    topic are [messages = 1200], [subscribers = 1], [delivered = 1200] and
    [dropped = 0], and the queue of the subscriber is empty; so
    [delivered + still_queued + dropped = 1200].  Every publish is
    drained to the socket before the next is enqueued, and nothing is
    dropped. *)
Theorem s6_all_delivered_none_dropped (options : BrokerOptions) (clock : Z)
    (ops : list Op) (t : string) (s : SocketId) (cid : string)
    (n : option Z) (r : option UUID)
    (ms : list (PublishPayload * option UUID)) :
  let w0 := run ops (init options clock) in
  let w := publish_all t ms (subscribe s t cid n r (snd (createTopic t w0))) in
  subscriberQueueSize options = 512%Z ->
  JsMap.has t (topics w0) = false ->
  length ms = 1200 ->
  exists topic sub,
    JsMap.get t (topics w) = Some topic
    /\ subscribers topic = [(s, sub)]
    /\ BoundedQueue.length (queue sub) = 0
    /\ TopicStats.messages (stats topic) = 1200
    /\ TopicStats.delivered (stats topic) = 1200
    /\ TopicStats.dropped (stats topic) = 0
    /\ TopicStats.delivered (stats topic)
       + BoundedQueue.length (queue sub)
       + TopicStats.dropped (stats topic) = 1200
    /\ JsMap.get t (getStats w) = Some (TopicStats.mk 1200 1 1200 0).
Proof.
  intros w0 w HQ Hfresh Hlen.
  assert (HI0 : Inv w0) by apply InvFacts.Inv_run, InvFacts.Inv_init.
  assert (Ho0 : subscriberQueueSize (opts w0) = 512%Z).
  { unfold w0. now rewrite InvFacts.opts_run. }
  set (w1 := snd (createTopic t w0)) in *.
  assert (HI1 : Inv w1) by now apply InvFacts.Inv_createTopic.
  assert (Hg1 : JsMap.get t (topics w1)
                = Some {| name := t; subscribers := JsMap.empty;
                          ring := RingBuffer.new
                                    (ringBufferSize (opts w0));
                          stats := TopicStats.mk 0 0 0 0 |}).
  { unfold w1, createTopic. rewrite Hfresh. simpl.
    apply MapFacts.get_set_eq. }
  set (w2 := subscribe s t cid n r w1) in *.
  assert (HI2 : Inv w2) by now apply InvFacts.Inv_subscribe.
  assert (Ho2 : opts w2 = opts w0).
  { exact (eq_trans (InvFacts.opts_step w1 (OpSubscribe s t cid n r))
             (InvFacts.opts_step w0 (OpCreateTopic t))). }
  pose proof (BrokerFacts.subscribe_found w1 s t cid n r _ Hg1) as Hsub.
  cbn zeta in Hsub. cbn [ring subscribers stats] in Hsub.
  rewrite BurstFacts.replayed_new in Hsub. cbn in Hsub. fold w2 in Hsub.
  assert (Hg2 : JsMap.get t (topics w2) = Some
             {| name := t;
                subscribers :=
                  [(s, {| socket := s; clientId := cid;
                          queue := BoundedQueue.new
                                     (subscriberQueueSize
                                        (opts w1)) |})];
                ring := RingBuffer.new (ringBufferSize (opts w0));
                stats := TopicStats.mk 0 1 0 0 |}).
  { rewrite Hsub. cbn [topics with_wire with_topics].
    apply MapFacts.get_set_eq. }
  destruct (BurstFacts.publish_all_found t ms w2 _ HI2 Hg2)
    as [topic [H1 [H2 H3]]].
  cbn [subscribers stats TopicStats.messages TopicStats.delivered
       TopicStats.dropped TopicStats.subscribers] in H2, H3.
  rewrite Ho2, Ho0, Hlen in H3. cbn in H3.
  exists topic. eexists. split; [exact H1 |]. split; [exact H2 |].
  rewrite H3. repeat split.
  rewrite BurstFacts.get_getStats. subst w. rewrite H1. simpl.
  now rewrite H2, H3.
Qed.

Lemma s6_all_delivered_none_dropped_witness :
  subscriberQueueSize server_opts = 512%Z
  /\ JsMap.has "bp"%string (topics (run [] (init server_opts 0%Z))) = false
  /\ length (map (fun i => (sample_payload (Z.of_nat i), @None UUID))
               (seq 0 1200)) = 1200
  /\ JsMap.get "bp"%string (getStats s6)
     = Some (TopicStats.mk 1200 1 1200 0).
Proof.
  split; [reflexivity |]. split; [reflexivity |].
  split; [vm_compute; reflexivity |].
  destruct (s6_all_delivered_none_dropped server_opts 0%Z [] "bp"%string
              "S"%string "bp1"%string None None
              (map (fun i => (sample_payload (Z.of_nat i), @None UUID))
                 (seq 0 1200))
              eq_refl eq_refl ltac:(vm_compute; reflexivity))
    as [topic [sub [_ [_ [_ [_ [_ [_ [_ H]]]]]]]]].
  exact H.
Defined.

(** C2 as stated fails: in the scenario S6 on the server (queues of
    capacity 512, one subscriber, 1200 publishes) the topic counts 1200
    messages and no drop at all. *)
Lemma s6_nothing_dropped :
  exists topic,
    JsMap.get "bp"%string (topics s6) = Some topic
    /\ TopicStats.messages (stats topic) = 1200
    /\ TopicStats.dropped (stats topic) = 0
    /\ ~ (TopicStats.dropped (stats topic) > 0).
Proof.
  eexists. split; [vm_compute; reflexivity |].
  split; [reflexivity |]. split; [reflexivity |].
  cbn. lia.
Qed.

(** ** What goes on the wire *)

Module WireFacts.
Import MapFacts DeliveryFacts BrokerFacts InvFacts.

Lemma events_for_app c t l1 l2 :
  events_for c t (l1 ++ l2) = events_for c t l1 ++ events_for c t l2.
Proof. apply flat_map_app. Qed.

Lemma events_for_map c t now reg m (subs : JsMap.t Subscriber) :
  events_for c t (map (fun e => event_sent now reg (fst e) t m) subs)
  = flat_map (fun e => if String.eqb (fst e) c then [m] else []) subs.
Proof.
  unfold events_for.
  induction subs as [| [k sub] subs IH]; simpl; [reflexivity |].
  rewrite String.eqb_refl, andb_true_r. f_equal. exact IH.
Qed.

(** Of the events of one fan-out, one goes to a socket of the table. *)
Lemma events_for_fanout c t now reg m (subs : JsMap.t Subscriber) :
  List.NoDup (JsMap.keys subs) -> JsMap.has c subs = true ->
  events_for c t (map (fun e => event_sent now reg (fst e) t m) subs) = [m].
Proof.
  intros Hnd Hc. rewrite events_for_map.
  destruct (select_one (fun _ => [m]) c subs Hnd Hc) as [v [_ Hsel]].
  exact Hsel.
Qed.

(** Every operation only adds to the wire, and what it adds carries the
    time of the operation. *)
Lemma step_sends (w : World) (op : Op) :
  Inv w ->
  exists seg, wire (step w op) = wire w ++ seg /\
              Forall (timestamped (now w)) seg.
Proof.
  intros HI.
  assert (Hsub : forall s t c n r,
    exists seg, wire (subscribe s t c n r w) = wire w ++ seg /\
                Forall (timestamped (now w)) seg).
  { intros s t c n r.
    destruct (JsMap.get t (topics w)) as [topic |] eqn:Hg.
    - rewrite (subscribe_found _ _ _ _ _ _ _ Hg). eexists.
      split; [reflexivity |]. constructor; [reflexivity |].
      apply List.Forall_map, List.Forall_forall. now intros m _.
    - unfold subscribe. rewrite Hg. eexists. split; [reflexivity |].
      now repeat constructor. }
  assert (Hunsub : forall s t c r,
    exists seg, wire (unsubscribe s t c r w) = wire w ++ seg /\
                Forall (timestamped (now w)) seg).
  { intros s t c r. unfold unsubscribe.
    destruct (JsMap.get t (topics w)); eexists;
      (split; [reflexivity | now repeat constructor]). }
  assert (Hpub : forall t m r,
    exists seg, wire (snd (publish t m r w)) = wire w ++ seg /\
                Forall (timestamped (now w)) seg).
  { intros t m r. destruct (JsMap.get t (topics w)) as [topic |] eqn:Hg.
    - rewrite (publish_found _ _ _ _ _ HI Hg). eexists.
      split; [reflexivity |].
      apply List.Forall_map, List.Forall_forall. now intros e _.
    - unfold publish. rewrite Hg. exists []. split; [| constructor].
      now rewrite app_nil_r. }
  destruct op as [t | t | s t c n r | s t c r | t m r | s | s msg | ss | z];
    simpl.
  - unfold createTopic. exists [].
    split; [| constructor]. rewrite app_nil_r.
    now destruct (JsMap.has t (topics w)).
  - destruct (JsMap.get t (topics w)) as [topic |] eqn:Hg.
    + rewrite (deleteTopic_found _ _ _ Hg). eexists.
      split; [reflexivity |].
      apply List.Forall_flat_map, List.Forall_forall. intros sub _.
      now repeat constructor.
    + unfold deleteTopic. rewrite Hg. exists [].
      split; [| constructor]. now rewrite app_nil_r.
  - apply Hsub.
  - apply Hunsub.
  - apply Hpub.
  - exists []. split; [| constructor]. now rewrite app_nil_r.
  - destruct msg as [r t c n | r t c | r t m | r | r]; simpl.
    + apply Hsub.
    + apply Hunsub.
    + destruct (JsMap.get t (topics w)) as [topic |] eqn:Hg.
      * rewrite (publish_found _ _ _ _ _ HI Hg).
        cbn [emit wire with_wire with_topics]. rewrite <- app_assoc.
        eexists. split; [reflexivity |].
        apply List.Forall_app. split; [| now repeat constructor].
        apply List.Forall_map, List.Forall_forall. now intros e _.
      * unfold publish. rewrite Hg. eexists. split; [reflexivity |].
        now repeat constructor.
    + eexists. split; [reflexivity |]. now repeat constructor.
    + eexists. split; [reflexivity |]. now repeat constructor.
  - rewrite heartbeat_wire. eexists. split; [reflexivity |].
    apply List.Forall_map, List.Forall_forall. now intros e _.
  - exists []. split; [| constructor]. now rewrite app_nil_r.
Qed.

Lemma run_sends (ops : list Op) (w : World) :
  Inv w -> exists seg, wire (run ops w) = wire w ++ seg.
Proof.
  revert w. induction ops as [| op ops IH]; intros w HI; simpl.
  - exists []. now rewrite app_nil_r.
  - destruct (step_sends w op HI) as [seg1 [H1 _]].
    destruct (IH _ (Inv_step w op HI)) as [seg2 H2].
    exists (seg1 ++ seg2). now rewrite H2, H1, app_assoc.
Qed.

(** What the handler of a socket emits for a message with a request id
    that is not the empty string. *)
Lemma onMessage_sends (w : World) (s : SocketId) (msg : ClientMessage)
    (r : UUID) :
  Inv w -> inbound_request_id msg = Some r -> r <> EmptyString ->
  exists seg, wire (onMessage s msg w) = wire w ++ seg /\
              Forall (reply_or_event s r) seg.
Proof.
  intros HI Hr Hne.
  destruct r as [| a r']; [contradiction |].
  destruct msg as [r0 t c n | r0 t c | r0 t m | r0 | r0];
    simpl in Hr; subst r0; simpl.
  - destruct (JsMap.get t (topics w)) as [topic |] eqn:Hg.
    + rewrite (subscribe_found _ _ _ _ _ _ _ Hg). eexists.
      split; [reflexivity |].
      constructor.
      * unfold reply_or_event, ack_sent. simpl. now split.
      * apply List.Forall_map, List.Forall_forall. now intros m _.
    + unfold subscribe. rewrite Hg. eexists. split; [reflexivity |].
      now repeat constructor.
  - unfold unsubscribe.
    destruct (JsMap.get t (topics w)); eexists;
      (split; [reflexivity |]);
      now repeat constructor.
  - destruct (JsMap.get t (topics w)) as [topic |] eqn:Hg.
    + rewrite (publish_found _ _ _ _ _ HI Hg).
      cbn [emit wire with_wire with_topics]. rewrite <- app_assoc.
      eexists. split; [reflexivity |].
      apply List.Forall_app. split; [| now repeat constructor].
      apply List.Forall_map, List.Forall_forall. now intros e _.
    + unfold publish. rewrite Hg. eexists. split; [reflexivity |].
      now repeat constructor.
  - eexists. split; [reflexivity |]. now repeat constructor.
  - eexists. split; [reflexivity |]. now repeat constructor.
Qed.

End WireFacts.

(** C6.  On a running broker, let [p1] be published on topic [t], then
    anything happen, then [p2] be published on [t], and let the socket [c]
    have a record in the table of [t] at both publishes.  Then the event
    with [p1] is emitted to [c] during the first publish and the event with
    [p2] during the second: the events of [t] that [c] has been sent are
    those sent before, then [p1], then those of the operations in between,
    then [p2]. *)
Theorem events_in_publish_order (options : BrokerOptions) (clock : Z)
    (ops mid : list Op) (t : string) (c : SocketId)
    (p1 p2 : PublishPayload) (r1 r2 : option UUID) :
  let w0 := run ops (init options clock) in
  let w1 := snd (publish t p1 r1 w0) in
  let w2 := run mid w1 in
  let w3 := snd (publish t p2 r2 w2) in
  subscribed c t w0 -> subscribed c t w2 ->
  exists between,
    wire w2 = wire w1 ++ between
    /\ events_for c t (wire w1) = events_for c t (wire w0) ++ [p1]
    /\ events_for c t (wire w3)
       = events_for c t (wire w0) ++ [p1]
         ++ events_for c t between ++ [p2].
Proof.
  intros w0 w1 w2 w3 [topic0 [Hg0 Hc0]] [topic2 [Hg2 Hc2]].
  assert (HI0 : Inv w0) by apply InvFacts.Inv_run, InvFacts.Inv_init.
  assert (HI1 : Inv w1) by now apply InvFacts.Inv_publish.
  assert (HI2 : Inv w2) by now apply InvFacts.Inv_run.
  destruct (WireFacts.run_sends mid w1 HI1) as [between Hmid].
  fold w2 in Hmid.
  assert (H1 : events_for c t (wire w1) = events_for c t (wire w0) ++ [p1]).
  { unfold w1. rewrite (BrokerFacts.publish_found _ _ _ _ _ HI0 Hg0).
    cbn [snd wire with_wire with_topics].
    rewrite WireFacts.events_for_app. f_equal.
    apply WireFacts.events_for_fanout; [| exact Hc0].
    exact (proj1 (BrokerFacts.Inv_get _ _ _ HI0 Hg0)). }
  exists between. split; [exact Hmid |]. split; [exact H1 |].
  unfold w3. rewrite (BrokerFacts.publish_found _ _ _ _ _ HI2 Hg2).
  cbn [snd wire with_wire with_topics].
  rewrite WireFacts.events_for_app, Hmid, WireFacts.events_for_app, H1.
  rewrite WireFacts.events_for_fanout; [| | exact Hc2].
  - now rewrite <- !app_assoc.
  - exact (proj1 (BrokerFacts.Inv_get _ _ _ HI2 Hg2)).
Qed.

Lemma events_in_publish_order_witness :
  subscribed "b"%string "t"%string sample
  /\ subscribed "b"%string "t"%string
       (run [OpClock 5%Z]
          (snd (publish "t"%string (sample_payload 2) None sample)))
  /\ exists between,
       wire (run [OpClock 5%Z]
               (snd (publish "t"%string (sample_payload 2) None sample)))
       = wire (snd (publish "t"%string (sample_payload 2) None sample))
         ++ between
       /\ events_for "b"%string "t"%string
            (wire (snd (publish "t"%string (sample_payload 2) None sample)))
          = events_for "b"%string "t"%string (wire sample)
            ++ [sample_payload 2]
       /\ events_for "b"%string "t"%string
            (wire
               (snd (publish "t"%string (sample_payload 3) None
                       (run [OpClock 5%Z]
                          (snd (publish "t"%string (sample_payload 2) None
                                  sample))))))
          = events_for "b"%string "t"%string (wire sample)
            ++ [sample_payload 2]
            ++ events_for "b"%string "t"%string between
            ++ [sample_payload 3].
Proof.
  assert (H0 : subscribed "b"%string "t"%string sample).
  { eexists. split; [vm_compute; reflexivity | reflexivity]. }
  assert (H2 : subscribed "b"%string "t"%string
                 (run [OpClock 5%Z]
                    (snd (publish "t"%string (sample_payload 2) None
                            sample)))).
  { eexists. split; [vm_compute; reflexivity | reflexivity]. }
  split; [exact H0 |]. split; [exact H2 |].
  exact (events_in_publish_order server_opts 0%Z
           [ OpCreateTopic "t"%string;
             OpSubscribe "b"%string "t"%string "bob"%string None None;
             OpPublish "t"%string (sample_payload 0) None;
             OpPublish "t"%string (sample_payload 1) None ]
           [OpClock 5%Z] "t"%string "b"%string
           (sample_payload 2) (sample_payload 3) None None H0 H2).
Defined.

(** C7, as the code has it.  On a running broker every message that an
    operation emits carries a [ts], the ISO string of the time of the
    operation.  For an inbound message with a request id that is not the
    empty string, the handler emits events, which carry no request id, and
    messages of the other kinds ([ack], [error], [pong]), which go to the
    sender and carry that request id. *)
Theorem replies_echo_request_id (options : BrokerOptions) (clock : Z)
    (ops : list Op) :
  let w := run ops (init options clock) in
  (forall op,
      exists seg, wire (step w op) = wire w ++ seg /\
                  Forall (timestamped (now w)) seg)
  /\ (forall s msg r,
         inbound_request_id msg = Some r -> r <> EmptyString ->
         exists seg, wire (onMessage s msg w) = wire w ++ seg /\
                     Forall (reply_or_event s r) seg).
Proof.
  intros w.
  assert (HI : Inv w) by apply InvFacts.Inv_run, InvFacts.Inv_init.
  split.
  - intros op. now apply WireFacts.step_sends.
  - intros s msg r. now apply WireFacts.onMessage_sends.
Qed.

Lemma replies_echo_request_id_witness :
  inbound_request_id
    (PublishMessage (Some "p9"%string) "t"%string (sample_payload 9))
  = Some "p9"%string
  /\ "p9"%string <> EmptyString
  /\ exists seg,
       wire (onMessage "a"%string
               (PublishMessage (Some "p9"%string) "t"%string
                  (sample_payload 9)) sample)
       = wire sample ++ seg
       /\ Forall (reply_or_event "a"%string "p9"%string) seg.
Proof.
  split; [reflexivity |]. split; [discriminate |].
  exact (proj2 (replies_echo_request_id server_opts 0%Z
                  [ OpCreateTopic "t"%string;
                    OpSubscribe "b"%string "t"%string "bob"%string None None;
                    OpPublish "t"%string (sample_payload 0) None;
                    OpPublish "t"%string (sample_payload 1) None ])
           "a"%string
           (PublishMessage (Some "p9"%string) "t"%string (sample_payload 9))
           "p9"%string eq_refl ltac:(discriminate)).
Defined.

(** C7 as stated fails for events: a publish with the request id [p9] on
    a topic with one subscriber makes the handler emit the event to the
    subscriber without request id, and then the [ack] with it. *)
Lemma event_carries_no_request_id :
  emitted
    (drop (length (wire sample))
       (wire (onMessage "a"%string
                (PublishMessage (Some "p9"%string) "t"%string
                   (sample_payload 9)) sample)))
  = [ EventMessage None (Some (toISOString 0%Z)) "t"%string
        (sample_payload 9);
      AckMessage (Some "p9"%string) (Some (toISOString 0%Z))
        (Some "t"%string) ]
  /\ request_id (EventMessage None (Some (toISOString 0%Z)) "t"%string
                   (sample_payload 9)) <> Some "p9"%string.
Proof. split; [vm_compute; reflexivity | discriminate]. Qed.

(** * More of the code *)

(** ** The bounded queue under a burst *)

Module BurstQueueFacts.
Import BoundedQueue.

Lemma pushes_from {T : Type} (xs : list T) (q : t T) (d : nat) :
  (1 <= capacity q)%Z ->
  List.length (items q) <= Z.to_nat (capacity q) ->
  fold_left
    (fun dq x =>
       (fst dq + fst (pushDropOldest x (snd dq)),
        snd (pushDropOldest x (snd dq))))
    xs (d, q)
  = (d + (List.length (items q) + List.length xs - Z.to_nat (capacity q)),
     mk (drop (List.length (items q) + List.length xs
               - Z.to_nat (capacity q)) (items q ++ xs))
        (capacity q)).
Proof.
  intros HQ. revert q d HQ.
  induction xs as [| x xs IH]; intros [its cap] d HQ Hlen; simpl in *.
  - rewrite Nat.add_0_r, app_nil_r.
    replace (List.length its - Z.to_nat cap) with 0 by lia.
    now rewrite Nat.add_0_r.
  - destruct (Z_lt_ge_dec (Z.of_nat (List.length its)) cap) as [Hroom | Hfull].
    + rewrite (QueueFacts.push_room (mk its cap) x) by exact Hroom.
      rewrite IH; simpl; rewrite ?length_app; simpl; try lia.
      f_equal; [lia |]. f_equal.
      replace (List.length its + 1 + List.length xs - Z.to_nat cap)
        with (List.length its + S (List.length xs) - Z.to_nat cap) by lia.
      now rewrite <- app_assoc.
    + rewrite (QueueFacts.push_full (mk its cap) x) by exact Hfull.
      destruct its as [| h rest]; simpl in *; [lia |].
      rewrite IH; simpl; rewrite ?length_app; simpl; try lia.
      f_equal; [lia |]. f_equal.
      replace (S (List.length rest + S (List.length xs)) - Z.to_nat cap)
        with (S (List.length rest + 1 + List.length xs - Z.to_nat cap))
        by lia.
      simpl. now rewrite <- app_assoc.
Qed.

End BurstQueueFacts.

(** X1.  A queue of capacity [Q >= 1] that takes the items [xs] without
    a drain in between keeps the newest [min Q (length xs)] of them in the
    order of the pushes and reports one drop for every other item; a drain
    of at least that many then hands the kept items over, oldest first, and
    empties the queue. *)
Theorem queue_burst_keeps_newest {T : Type} (Q : Z) (xs : list T) :
  (1 <= Q)%Z ->
  let q := snd (pushes xs (BoundedQueue.new Q)) in
  let dropped := fst (pushes xs (BoundedQueue.new Q)) in
  BoundedQueue.items q = drop (length xs - Z.to_nat Q) xs
  /\ dropped = length xs - Z.to_nat Q
  /\ BoundedQueue.length q = Nat.min (Z.to_nat Q) (length xs)
  /\ dropped + BoundedQueue.length q = length xs
  /\ BoundedQueue.drain (Z.of_nat (length xs)) q
     = (drop (length xs - Z.to_nat Q) xs, BoundedQueue.new Q).
Proof.
  intros HQ q dropped. subst q dropped. unfold pushes.
  rewrite (BurstQueueFacts.pushes_from xs (BoundedQueue.new Q) 0)
    by (simpl; lia).
  simpl. unfold BoundedQueue.length. simpl.
  assert (Hlen : length (drop (length xs - Z.to_nat Q) xs)
                 = Nat.min (Z.to_nat Q) (length xs)).
  { rewrite length_drop. lia. }
  repeat split; try lia.
  unfold BoundedQueue.drain. simpl.
  destruct (Z.leb_spec (Z.of_nat (length xs)) 0) as [Hz | Hpos].
  - destruct xs; [reflexivity | simpl in Hz; lia].
  - rewrite Hlen.
    replace (Z.to_nat (Z.min (Z.of_nat (length xs))
                         (Z.of_nat (Nat.min (Z.to_nat Q) (length xs)))))
      with (Nat.min (Z.to_nat Q) (length xs)) by lia.
    rewrite <- Hlen at 1 2. now rewrite firstn_all, drop_all.
Qed.

Lemma queue_burst_keeps_newest_witness :
  (1 <= 2)%Z
  /\ BoundedQueue.items (snd (pushes [1; 2; 3; 4; 5] (BoundedQueue.new 2%Z)))
     = [4; 5]
  /\ fst (pushes [1; 2; 3; 4; 5] (BoundedQueue.new 2%Z)) = 3.
Proof.
  split; [lia |].
  destruct (queue_burst_keeps_newest 2%Z [1; 2; 3; 4; 5] ltac:(lia))
    as [H1 [H2 _]].
  split; [exact H1 | exact H2].
Defined.

(** X2.  A ring never leaves its buffer: after any appends to a new ring
    of capacity [R] the buffer still has [R] slots, [count] is at most [R],
    [start] is an index of the buffer, and [start] stays 0 until the ring
    is full. *)
Theorem ring_stays_in_bounds {T : Type} (R : nat) (xs : list T) :
  let r := RingBuffer.appends xs (RingBuffer.new R) in
  length (RingBuffer.buffer r) = R
  /\ RingBuffer.capacity r = R
  /\ RingBuffer.count r <= R
  /\ (R <> 0 -> RingBuffer.start r < R)
  /\ (R <> 0 -> RingBuffer.count r < R -> RingBuffer.start r = 0).
Proof.
  intros r.
  assert (Htr : tracks R xs r).
  { apply (RingFacts.tracks_appends R xs [] (RingBuffer.new R)).
    apply RingFacts.tracks_new. }
  destruct Htr as [Hcap Hlen Hcount Hstart _].
  repeat split; try assumption; try lia.
  - intros HR. rewrite (Hstart HR). apply Nat.mod_upper_bound. exact HR.
  - intros HR Hlt. rewrite (Hstart HR).
    replace (length xs - RingBuffer.count r) with 0 by lia.
    now apply Nat.Div0.mod_0_l.
Qed.

(** ** More on maps *)

Module MapMore.
Import JsMap MapFacts.

Section Map.
Context {V : Type}.
Implicit Types (m : t V) (k : string) (v : V).

Lemma get_delete_ne k k' m :
  k <> k' -> get k' (snd (delete k m)) = get k' m.
Proof.
  intros Hne. simpl. induction m as [| [k0 v0] m IH]; simpl; [reflexivity |].
  destruct (String.eqb_spec k k0) as [-> | Hk]; simpl.
  - destruct (String.eqb_spec k' k0); [congruence | exact IH].
  - now rewrite IH.
Qed.

Lemma has_delete k m : has k (snd (delete k m)) = false.
Proof. unfold has. now rewrite get_delete_eq. Qed.

Lemma delete_delete k m :
  snd (delete k (snd (delete k m))) = snd (delete k m).
Proof. apply delete_absent, has_delete. Qed.

Lemma set_same k v m : get k m = Some v -> set k v m = m.
Proof.
  induction m as [| [k' v'] m IH]; simpl; [discriminate |].
  destruct (String.eqb_spec k k') as [-> | Hne].
  - now intros [= ->].
  - intros H. now rewrite IH.
Qed.

Lemma get_map (f : string * V -> string * V) k m :
  (forall e, fst (f e) = fst e) ->
  get k (map f m) = option_map (fun v => snd (f (k, v))) (get k m).
Proof.
  intros Hf. induction m as [| [k' v'] m IH]; simpl; [reflexivity |].
  pose proof (Hf (k', v')) as Hk. destruct (f (k', v')) as [k1 v1] eqn:E.
  simpl in Hk. subst k1.
  destruct (String.eqb_spec k k') as [-> | Hne]; [| exact IH].
  simpl. now rewrite E.
Qed.

Lemma keys_map (f : string * V -> string * V) m :
  (forall e, fst (f e) = fst e) -> keys (map f m) = keys m.
Proof.
  intros Hf. unfold keys. rewrite map_map.
  apply map_ext. exact Hf.
Qed.

Lemma keys_set_fresh k v m :
  has k m = false -> keys (set k v m) = keys m ++ [k].
Proof.
  intros H. rewrite (set_fresh _ _ _ H). unfold keys. now rewrite map_app.
Qed.

Lemma get_Some_has k v m : get k m = Some v -> has k m = true.
Proof. unfold has. now intros ->. Qed.

Lemma get_None_has k m : get k m = None -> has k m = false.
Proof. unfold has. now intros ->. Qed.

Lemma In_get k v m : List.NoDup (keys m) -> In (k, v) m -> get k m = Some v.
Proof.
  induction m as [| [k' v'] m IH]; simpl; [tauto |].
  intros Hnd Hin. apply List.NoDup_cons_iff in Hnd as [Hnotin Hnd].
  destruct (String.eqb_spec k k') as [-> | Hne].
  - destruct Hin as [[= ->] | Hin]; [reflexivity |].
    exfalso. apply Hnotin. exact (in_map fst _ _ Hin).
  - destruct Hin as [[= -> ->] | Hin]; [congruence |]. now apply IH.
Qed.

End Map.
End MapMore.

(** ** The records between two operations *)

Module SoundFacts.
Import MapFacts MapMore DeliveryFacts BrokerFacts InvFacts.

Lemma Sound_intro (w w' : World) :
  opts w' = opts w -> Inv w' ->
  List.NoDup (JsMap.keys (topics w')) ->
  Forall (topic_sound (opts w)) (topics w') ->
  Sound w'.
Proof. intros Ho HI Hnd Hf. unfold Sound. rewrite Ho. auto. Qed.

Lemma Sound_get (w : World) t topic :
  Sound w -> JsMap.get t (topics w) = Some topic ->
  topic_sound (opts w) (t, topic).
Proof.
  intros [_ [_ Hf]] Hg. apply get_In in Hg.
  exact (proj1 (List.Forall_forall _ _) Hf _ Hg).
Qed.

Lemma Sound_init o c : Sound (init o c).
Proof. repeat split; constructor. Qed.

Lemma hsd_entry_fst s (e : string * Topic) :
  fst (let topic := snd e in
       let '(removed, subs) := JsMap.delete s (subscribers topic) in
       if removed then
         (fst e,
          {| name := name topic; subscribers := subs; ring := ring topic;
             stats := set_subscribers (JsMap.size subs) (stats topic) |})
       else e) = fst e.
Proof. simpl. now destruct (JsMap.has s (subscribers (snd e))). Qed.

Lemma Sound_createTopic t w : Sound w -> Sound (snd (createTopic t w)).
Proof.
  intros HS. pose proof HS as [HI [Hnd Hf]].
  unfold createTopic. destruct (JsMap.has t (topics w)) eqn:Hh; [exact HS |].
  apply (Sound_intro w); simpl.
  - reflexivity.
  - pose proof (Inv_createTopic t w HI) as H. unfold createTopic in H.
    now rewrite Hh in H.
  - now apply NoDup_keys_set.
  - apply Forall_set; [exact Hf |].
    repeat split; simpl; try reflexivity.
    exists []. split; [apply RingFacts.tracks_new | reflexivity].
Qed.

Lemma Sound_deleteTopic t w : Sound w -> Sound (snd (deleteTopic t w)).
Proof.
  intros HS. pose proof HS as [HI [Hnd Hf]].
  pose proof (Inv_deleteTopic t w HI) as HI'.
  destruct (JsMap.get t (topics w)) as [topic |] eqn:Hg.
  - rewrite (deleteTopic_found _ _ _ Hg) in *.
    apply (Sound_intro w); simpl; auto.
    + now apply NoDup_keys_delete.
    + apply (Forall_delete _ t (topics w)). exact Hf.
  - unfold deleteTopic. now rewrite Hg.
Qed.

Lemma Sound_subscribe s t c n r w : Sound w -> Sound (subscribe s t c n r w).
Proof.
  intros HS. pose proof HS as [HI [Hnd Hf]].
  pose proof (Inv_subscribe s t c n r w HI) as HI'.
  destruct (JsMap.get t (topics w)) as [topic |] eqn:Hg.
  - destruct (Sound_get _ _ _ HS Hg) as [Hname [Hsubs [Hdrop [Hzero Hring]]]].
    simpl in Hname, Hsubs, Hdrop, Hzero, Hring.
    rewrite (subscribe_found _ _ _ _ _ _ _ Hg) in *.
    apply (Sound_intro w); simpl; auto.
    + now apply NoDup_keys_set.
    + apply Forall_set; [exact Hf |].
      rewrite account_fold. repeat split; simpl; auto.
      * intros HQ. rewrite Hdrop by exact HQ.
        destruct (Z.geb_spec 0 (subscriberQueueSize (opts w))); [lia |].
        reflexivity.
      * intros HQ. rewrite Hzero by exact HQ.
        destruct (Z.geb_spec 0 (subscriberQueueSize (opts w))); [| lia].
        reflexivity.
  - unfold subscribe. rewrite Hg. exact HS.
Qed.

Lemma Sound_unsubscribe s t c r w : Sound w -> Sound (unsubscribe s t c r w).
Proof.
  intros HS. pose proof HS as [HI [Hnd Hf]].
  pose proof (Inv_unsubscribe s t c r w HI) as HI'.
  unfold unsubscribe in *.
  destruct (JsMap.get t (topics w)) as [topic |] eqn:Hg; [| exact HS].
  destruct (Sound_get _ _ _ HS Hg) as [Hname [Hsubs [Hdrop [Hzero Hring]]]].
  simpl in Hname, Hsubs, Hdrop, Hzero, Hring.
  apply (Sound_intro w); simpl; auto.
  - now apply NoDup_keys_set.
  - apply Forall_set; [exact Hf |]. repeat split; simpl; auto.
Qed.

Lemma Sound_publish t m r w : Sound w -> Sound (snd (publish t m r w)).
Proof.
  intros HS. pose proof HS as [HI [Hnd Hf]].
  pose proof (Inv_publish t m r w HI) as HI'.
  destruct (JsMap.get t (topics w)) as [topic |] eqn:Hg.
  - destruct (Sound_get _ _ _ HS Hg) as [Hname [Hsubs [Hdrop [Hzero Hring]]]].
    simpl in Hname, Hsubs, Hdrop, Hzero, Hring.
    rewrite (publish_found _ _ _ _ _ HI Hg) in *.
    apply (Sound_intro w); simpl; auto.
    + now apply NoDup_keys_set.
    + apply Forall_set; [exact Hf |].
      rewrite account_fold. repeat split; simpl; auto.
      * intros HQ. rewrite Hdrop by exact HQ.
        destruct (Z.geb_spec 0 (subscriberQueueSize (opts w))); [lia |].
        reflexivity.
      * intros HQ. rewrite Hzero by exact HQ.
        destruct (Z.geb_spec 0 (subscriberQueueSize (opts w))); [| lia].
        reflexivity.
      * destruct Hring as [xs [Htr Hlen]]. exists (xs ++ [m]). split.
        -- now apply RingFacts.tracks_append.
        -- rewrite length_app. simpl. lia.
  - unfold publish. now rewrite Hg.
Qed.

Lemma Sound_handleSocketDisconnect s w :
  Sound w -> Sound (handleSocketDisconnect s w).
Proof.
  intros HS. pose proof HS as [HI [Hnd Hf]].
  apply (Sound_intro w).
  - reflexivity.
  - now apply Inv_handleSocketDisconnect.
  - simpl. rewrite keys_map; [exact Hnd |]. intros e. apply hsd_entry_fst.
  - simpl. apply List.Forall_map.
    refine (List.Forall_impl _ _ Hf).
    intros [k topic] [Hname [Hsubs [Hdrop [Hzero Hring]]]].
    simpl in Hname, Hsubs, Hdrop, Hzero, Hring. cbn [snd fst JsMap.delete].
    destruct (JsMap.has s (subscribers topic)); repeat split; auto.
Qed.

Lemma Sound_onMessage s msg w : Sound w -> Sound (onMessage s msg w).
Proof.
  intros HS. destruct msg as [r t c n | r t c | r t m | r | r]; simpl.
  - now apply Sound_subscribe.
  - now apply Sound_unsubscribe.
  - pose proof (Sound_publish t m r w HS) as HP.
    destruct (publish t m r w) as [[ts |] w']; exact HP.
  - exact HS.
  - exact HS.
Qed.

Lemma Sound_step w op : Sound w -> Sound (step w op).
Proof.
  intros HS. destruct op; simpl.
  - now apply Sound_createTopic.
  - now apply Sound_deleteTopic.
  - now apply Sound_subscribe.
  - now apply Sound_unsubscribe.
  - now apply Sound_publish.
  - now apply Sound_handleSocketDisconnect.
  - now apply Sound_onMessage.
  - rewrite heartbeat_wire. exact HS.
  - exact HS.
Qed.

Lemma Sound_run ops w : Sound w -> Sound (run ops w).
Proof.
  revert w. induction ops as [| op ops IH]; intros w HS; simpl.
  - exact HS.
  - apply IH. now apply Sound_step.
Qed.

Lemma Sound_reachable o c ops : Sound (run ops (init o c)).
Proof. apply Sound_run, Sound_init. Qed.

End SoundFacts.


(** X4.  When the configured capacity of the queues is at least 1, no
    topic ever counts a drop: after any sequence of operations on a new
    broker [dropped] is 0 for every topic. *)
Theorem positive_capacity_never_drops (options : BrokerOptions)
    (clock : Z) (ops : list Op) :
  (0 < subscriberQueueSize options)%Z ->
  Forall (fun e : string * Topic => TopicStats.dropped (stats (snd e)) = 0)
    (topics (run ops (init options clock))).
Proof.
  intros HQ.
  destruct (SoundFacts.Sound_reachable options clock ops) as [_ [_ Hf]].
  rewrite InvFacts.opts_run in Hf. simpl in Hf.
  refine (List.Forall_impl _ _ Hf). intros e [_ [_ [H _]]]. now apply H.
Qed.

Lemma positive_capacity_never_drops_witness :
  (0 < subscriberQueueSize server_opts)%Z
  /\ Forall (fun e : string * Topic =>
               TopicStats.dropped (stats (snd e)) = 0) (topics sample).
Proof.
  split; [reflexivity |].
  exact (positive_capacity_never_drops server_opts 0%Z
           [ OpCreateTopic "t"%string;
             OpSubscribe "b"%string "t"%string "bob"%string None None;
             OpPublish "t"%string (sample_payload 0) None;
             OpPublish "t"%string (sample_payload 1) None ]
           eq_refl).
Defined.

(** X5.  After any sequence of operations on a new broker the ring of
    every topic holds [min R messages] payloads, where [R] is the
    configured ring size and [messages] the counter of the topic; a replay
    of the last [n > 0] therefore has [min n (min R messages)] payloads. *)
Theorem ring_holds_min_capacity_messages (options : BrokerOptions)
    (clock : Z) (ops : list Op) :
  Forall (fun e : string * Topic =>
            RingBuffer.capacity (ring (snd e)) = ringBufferSize options
            /\ RingBuffer.count (ring (snd e))
               = Nat.min (ringBufferSize options)
                   (TopicStats.messages (stats (snd e)))
            /\ forall n : Z, (0 < n)%Z ->
                 length (replayed (Some n) (ring (snd e)))
                 = Nat.min (Z.to_nat n)
                     (Nat.min (ringBufferSize options)
                        (TopicStats.messages (stats (snd e)))))
    (topics (run ops (init options clock))).
Proof.
  destruct (SoundFacts.Sound_reachable options clock ops) as [_ [_ Hf]].
  rewrite InvFacts.opts_run in Hf. simpl in Hf.
  refine (List.Forall_impl _ _ Hf).
  intros e [_ [_ [_ [_ [xs [Htr Hlen]]]]]].
  pose proof (tr_count _ _ _ Htr) as Hcount. rewrite Hlen in Hcount.
  split; [exact (tr_capacity _ _ _ Htr) |]. split; [exact Hcount |].
  intros n Hn. unfold replayed.
  destruct (Z.ltb_spec 0 n) as [_ | ?]; [| lia].
  rewrite (RingFacts.last_tracks _ _ _ n Htr) by lia.
  rewrite length_drop, Hcount. lia.
Qed.

(** X6.  After any sequence of operations on a new broker the names in
    the registry are distinct and every record carries the name it is
    filed under; [getTopics] lists these names, each once, in the order of
    the registry. *)
Theorem registry_names_distinct (options : BrokerOptions) (clock : Z)
    (ops : list Op) :
  let w := run ops (init options clock) in
  List.NoDup (JsMap.keys (topics w))
  /\ Forall (fun e : string * Topic => name (snd e) = fst e) (topics w)
  /\ map fst (getTopics w) = JsMap.keys (topics w).
Proof.
  intros w.
  destruct (SoundFacts.Sound_reachable options clock ops) as [_ [Hnd Hf]].
  fold w in Hnd, Hf.
  assert (H : Forall (fun e : string * Topic => name (snd e) = fst e)
                (topics w)).
  { refine (List.Forall_impl _ _ Hf). now intros e [H _]. }
  split; [exact Hnd |]. split; [exact H |].
  unfold getTopics, JsMap.values, JsMap.keys. rewrite !map_map. simpl.
  apply map_ext_in. intros e He.
  exact (proj1 (List.Forall_forall _ _) H e He).
Qed.

(** ** Snapshots, unsubscribe, disconnect *)

Module SnapshotFacts.

Lemma sum_sizes (l : list (string * Topic)) (a : nat) :
  fold_left (fun acc t => acc + JsMap.size (subscribers t))
    (JsMap.values l) a
  = a + length (flat_map
                  (fun e : string * Topic => JsMap.values (subscribers (snd e)))
                  l).
Proof.
  revert a. induction l as [| [k topic] l IH]; intros a; simpl.
  - lia.
  - rewrite IH, length_app.
    unfold JsMap.values, JsMap.size. rewrite length_map. lia.
Qed.

Lemma sum_listed (l : list (string * Topic)) :
  list_sum (map snd (map (fun t => (name t, JsMap.size (subscribers t)))
                       (JsMap.values l)))
  = length (flat_map
              (fun e : string * Topic => JsMap.values (subscribers (snd e)))
              l).
Proof.
  induction l as [| [k topic] l IH]; simpl; [reflexivity |].
  rewrite IH, length_app.
  unfold JsMap.values, JsMap.size. now rewrite length_map.
Qed.

Lemma set_subscribers_twice n n' st :
  set_subscribers n' (set_subscribers n st) = set_subscribers n' st.
Proof. reflexivity. Qed.

Lemma set_subscribers_same st :
  set_subscribers (TopicStats.subscribers st) st = st.
Proof. now destruct st. Qed.

Lemma unsubscribe_found (w : World) s t c r topic :
  JsMap.get t (topics w) = Some topic ->
  unsubscribe s t c r w
  = emit s (AckMessage (truthy r) (Some (toISOString (now w))) (Some t))
      (with_topics
         (JsMap.set t
            {| name := name topic;
               subscribers := snd (JsMap.delete s (subscribers topic));
               ring := ring topic;
               stats :=
                 set_subscribers
                   (JsMap.size (snd (JsMap.delete s (subscribers topic))))
                   (stats topic) |}
            (topics w)) w).
Proof. intros Hg. unfold unsubscribe. now rewrite Hg. Qed.

End SnapshotFacts.

(** X7.  [getHealth] counts subscriptions, not sockets: its [subscribers]
    is the number of subscriber records over all topics, which is the sum
    of the numbers [getTopics] lists, and its [topics] is the number of
    entries [getTopics] lists; [uptime_sec] is the uptime rounded down. *)
Theorem health_counts_subscriptions (uptime : QArith_base.Q) (w : World) :
  health_topics (getHealth uptime w) = length (getTopics w)
  /\ health_subscribers (getHealth uptime w) = length (all_subscribers w)
  /\ health_subscribers (getHealth uptime w)
     = list_sum (map snd (getTopics w))
  /\ QArith_base.Qle
       (QArith_base.inject_Z (uptime_sec (getHealth uptime w))) uptime.
Proof.
  unfold getHealth, getTopics, all_subscribers. simpl.
  rewrite SnapshotFacts.sum_sizes, SnapshotFacts.sum_listed.
  repeat split.
  - unfold JsMap.size, JsMap.values. now rewrite !length_map.
  - apply Qround.Qfloor_le.
Qed.

(** X8.  For a topic that is in the registry, a second [unsubscribe] of
    the same socket changes nothing in the registry, and both calls are
    answered with an [ack]. *)
Theorem unsubscribe_idempotent (w : World) (s : SocketId)
    (t c c' : string) (r r' : option UUID) (topic : Topic) :
  JsMap.get t (topics w) = Some topic ->
  topics (unsubscribe s t c' r' (unsubscribe s t c r w))
  = topics (unsubscribe s t c r w)
  /\ wire (unsubscribe s t c' r' (unsubscribe s t c r w))
     = wire w ++ [ ack_sent (now w) (JsMap.keys (topics w)) s r t;
                   ack_sent (now w) (JsMap.keys (topics w)) s r' t ].
Proof.
  intros Hg. rewrite (SnapshotFacts.unsubscribe_found w s t c r topic Hg).
  erewrite SnapshotFacts.unsubscribe_found
    by (cbn [topics emit with_wire with_topics]; apply MapFacts.get_set_eq).
  cbn [topics emit with_wire with_topics now wire subscribers stats name ring].
  rewrite MapMore.delete_delete, MapFacts.set_set.
  split; [reflexivity |].
  rewrite !(MapFacts.keys_set_present t _ (topics w))
    by (eapply MapMore.get_Some_has; exact Hg).
  unfold ack_sent. now rewrite <- app_assoc.
Qed.

Lemma unsubscribe_idempotent_witness :
  exists topic,
    JsMap.get "t"%string (topics sample) = Some topic
    /\ topics (unsubscribe "b"%string "t"%string "bob"%string None
                 (unsubscribe "b"%string "t"%string "bob"%string None sample))
       = topics (unsubscribe "b"%string "t"%string "bob"%string None sample).
Proof.
  eexists. split; [vm_compute; reflexivity |].
  exact (proj1 (unsubscribe_idempotent sample "b"%string "t"%string
                  "bob"%string "bob"%string None None _ eq_refl)).
Defined.

(** X9.  On a running broker an [unsubscribe] from a socket that has no
    record in the table of the topic is answered with an [ack] and changes
    nothing else. *)
Theorem unsubscribe_stranger_only_acks (options : BrokerOptions) (clock : Z)
    (ops : list Op) (s : SocketId) (t c : string) (r : option UUID)
    (topic : Topic) :
  let w := run ops (init options clock) in
  JsMap.get t (topics w) = Some topic ->
  JsMap.has s (subscribers topic) = false ->
  unsubscribe s t c r w
  = emit s (AckMessage (truthy r) (Some (toISOString (now w))) (Some t)) w.
Proof.
  intros w Hg Hs.
  pose proof (SoundFacts.Sound_reachable options clock ops) as HS. fold w in HS.
  destruct (SoundFacts.Sound_get _ _ _ HS Hg) as [_ [Hsubs _]]. simpl in Hsubs.
  rewrite (SnapshotFacts.unsubscribe_found w s t c r topic Hg).
  rewrite (MapFacts.delete_absent s _ Hs), <- Hsubs.
  rewrite SnapshotFacts.set_subscribers_same.
  replace {| name := name topic; subscribers := subscribers topic;
             ring := ring topic; stats := stats topic |} with topic
    by now destruct topic.
  rewrite (MapMore.set_same _ _ _ Hg). now destruct w.
Qed.

Lemma unsubscribe_stranger_only_acks_witness :
  exists topic,
    JsMap.get "t"%string (topics sample) = Some topic
    /\ JsMap.has "z"%string (subscribers topic) = false
    /\ unsubscribe "z"%string "t"%string "zed"%string (Some "u1"%string)
         sample
       = emit "z"%string
           (AckMessage (Some "u1"%string) (Some (toISOString 0%Z))
              (Some "t"%string)) sample.
Proof.
  eexists. split; [vm_compute; reflexivity |]. split; [reflexivity |].
  exact (unsubscribe_stranger_only_acks server_opts 0%Z
           [ OpCreateTopic "t"%string;
             OpSubscribe "b"%string "t"%string "bob"%string None None;
             OpPublish "t"%string (sample_payload 0) None;
             OpPublish "t"%string (sample_payload 1) None ]
           "z"%string "t"%string "zed"%string (Some "u1"%string) _
           eq_refl eq_refl).
Defined.

Module DisconnectFacts.
Import MapFacts MapMore.

(** The entry of a topic after [handleSocketDisconnect]. *)
Lemma hsd_entry s (k : string) (topic : Topic) :
  (let topic0 := snd (k, topic) in
   let '(removed, subs) := JsMap.delete s (subscribers topic0) in
   if removed then
     (fst (k, topic),
      {| name := name topic0; subscribers := subs; ring := ring topic0;
         stats := set_subscribers (JsMap.size subs) (stats topic0) |})
   else (k, topic))
  = (k, if JsMap.has s (subscribers topic)
        then {| name := name topic;
                subscribers := snd (JsMap.delete s (subscribers topic));
                ring := ring topic;
                stats :=
                  set_subscribers
                    (JsMap.size (snd (JsMap.delete s (subscribers topic))))
                    (stats topic) |}
        else topic).
Proof. simpl. now destruct (JsMap.has s (subscribers topic)). Qed.

Lemma hsd_get s t (w : World) :
  JsMap.get t (topics (handleSocketDisconnect s w))
  = option_map
      (fun topic =>
         if JsMap.has s (subscribers topic)
         then {| name := name topic;
                 subscribers := snd (JsMap.delete s (subscribers topic));
                 ring := ring topic;
                 stats :=
                   set_subscribers
                     (JsMap.size (snd (JsMap.delete s (subscribers topic))))
                     (stats topic) |}
         else topic)
      (JsMap.get t (topics w)).
Proof.
  unfold handleSocketDisconnect. cbn [topics with_topics].
  rewrite get_map by (intros e; apply SoundFacts.hsd_entry_fst).
  destruct (JsMap.get t (topics w)) as [topic |]; [| reflexivity].
  simpl option_map. f_equal.
  exact (f_equal snd (hsd_entry s t topic)).
Qed.

Lemma hsd_twice s (l : list (string * Topic)) :
  let f := fun e : string * Topic =>
    let topic := snd e in
    let '(removed, subs) := JsMap.delete s (subscribers topic) in
    if removed then
      (fst e,
       {| name := name topic; subscribers := subs; ring := ring topic;
          stats := set_subscribers (JsMap.size subs) (stats topic) |})
    else e in
  map f (map f l) = map f l.
Proof.
  intros f. rewrite map_map. apply map_ext. intros [k topic].
  unfold f. cbn [snd fst JsMap.delete].
  destruct (JsMap.has s (subscribers topic)) eqn:Hh;
    cbn [snd fst subscribers].
  - pose proof (has_delete s (subscribers topic)) as Hd.
    cbn [snd JsMap.delete] in Hd. now rewrite Hd.
  - now rewrite Hh.
Qed.

End DisconnectFacts.

(** X10.  [handleSocketDisconnect] is silent and removes the socket
    from the table of every topic: nothing is written to a socket, the set
    of topics is the same, and in every topic the socket has no record
    afterwards while the records of the other sockets, the ring and the
    counters of messages, deliveries and drops are as before.  A second
    call changes nothing. *)
Theorem disconnect_leaves_every_table (w : World) (s : SocketId) :
  let w' := handleSocketDisconnect s w in
  wire w' = wire w
  /\ JsMap.keys (topics w') = JsMap.keys (topics w)
  /\ (forall t topic,
         JsMap.get t (topics w) = Some topic ->
         exists topic',
           JsMap.get t (topics w') = Some topic'
           /\ subscribers topic' = snd (JsMap.delete s (subscribers topic))
           /\ JsMap.has s (subscribers topic') = false
           /\ (forall c, c <> s ->
                 JsMap.get c (subscribers topic')
                 = JsMap.get c (subscribers topic))
           /\ ring topic' = ring topic
           /\ TopicStats.messages (stats topic')
              = TopicStats.messages (stats topic)
           /\ TopicStats.delivered (stats topic')
              = TopicStats.delivered (stats topic)
           /\ TopicStats.dropped (stats topic')
              = TopicStats.dropped (stats topic))
  /\ handleSocketDisconnect s w' = w'.
Proof.
  intros w'. split; [reflexivity |]. split.
  { unfold w', handleSocketDisconnect. cbn [topics with_topics].
    apply MapMore.keys_map. intros e. apply SoundFacts.hsd_entry_fst. }
  split.
  - intros t topic Hg. unfold w'. rewrite DisconnectFacts.hsd_get, Hg.
    simpl option_map. eexists. split; [reflexivity |].
    destruct (JsMap.has s (subscribers topic)) eqn:Hh; cbn [subscribers ring stats].
    + split; [reflexivity |]. split; [apply MapMore.has_delete |].
      split; [| repeat split].
      intros c Hc. apply MapMore.get_delete_ne. congruence.
    + rewrite (MapFacts.delete_absent _ _ Hh). repeat split. exact Hh.
  - unfold w', handleSocketDisconnect. cbn [topics with_topics].
    unfold with_topics. cbn [topics opts now wire]. f_equal.
    apply DisconnectFacts.hsd_twice.
Qed.

(** X11.  When the configured capacity of the queues is 0 or negative,
    every push reports a drop although the item pushed is kept and then
    delivered: after any sequence of operations on a new broker every topic
    counts exactly as many drops as deliveries. *)
Theorem no_capacity_counts_deliveries_as_drops (options : BrokerOptions)
    (clock : Z) (ops : list Op) :
  (subscriberQueueSize options <= 0)%Z ->
  Forall (fun e : string * Topic =>
            TopicStats.dropped (stats (snd e))
            = TopicStats.delivered (stats (snd e)))
    (topics (run ops (init options clock))).
Proof.
  intros HQ.
  destruct (SoundFacts.Sound_reachable options clock ops) as [_ [_ Hf]].
  rewrite InvFacts.opts_run in Hf. simpl in Hf.
  refine (List.Forall_impl _ _ Hf). intros e [_ [_ [_ [H _]]]]. now apply H.
Qed.

Lemma no_capacity_counts_deliveries_as_drops_witness :
  (subscriberQueueSize
     {| ringBufferSize := 4; subscriberQueueSize := 0;
        heartbeatIntervalMs := 30000 |} <= 0)%Z
  /\ Forall (fun e : string * Topic =>
               TopicStats.dropped (stats (snd e))
               = TopicStats.delivered (stats (snd e)))
       (topics
          (run [ OpCreateTopic "t"%string;
                 OpSubscribe "b"%string "t"%string "bob"%string None None;
                 OpPublish "t"%string (sample_payload 0) None;
                 OpPublish "t"%string (sample_payload 1) None ]
             (init {| ringBufferSize := 4; subscriberQueueSize := 0;
                      heartbeatIntervalMs := 30000 |} 0%Z))).
Proof.
  split; [simpl; lia |].
  exact (no_capacity_counts_deliveries_as_drops
           {| ringBufferSize := 4; subscriberQueueSize := 0;
              heartbeatIntervalMs := 30000 |} 0%Z
           [ OpCreateTopic "t"%string;
             OpSubscribe "b"%string "t"%string "bob"%string None None;
             OpPublish "t"%string (sample_payload 0) None;
             OpPublish "t"%string (sample_payload 1) None ]
           ltac:(simpl; lia)).
Defined.

(** With capacity 0 the two publishes of the run above are both delivered
    and both counted as dropped. *)
Example no_capacity_stats :
  getStats
    (run [ OpCreateTopic "t"%string;
           OpSubscribe "b"%string "t"%string "bob"%string None None;
           OpPublish "t"%string (sample_payload 0) None;
           OpPublish "t"%string (sample_payload 1) None ]
       (init {| ringBufferSize := 4; subscriberQueueSize := 0;
                heartbeatIntervalMs := 30000 |} 0%Z))
  = [("t"%string, TopicStats.mk 2 1 2 2)].
Proof. vm_compute. reflexivity. Qed.

Module ReachFacts.
Import MapFacts MapMore BrokerFacts InvFacts WireFacts.

Lemma events_for_other_topic c t t' now reg m (subs : JsMap.t Subscriber) :
  t' <> t ->
  events_for c t' (map (fun e => event_sent now reg (fst e) t m) subs) = [].
Proof.
  intros Hne. unfold events_for.
  induction subs as [| [k sub] subs IH]; simpl; [reflexivity |].
  destruct (String.eqb_spec t t') as [E | _]; [congruence |].
  now rewrite andb_false_r.
Qed.

Lemma events_for_stranger c t now reg m (subs : JsMap.t Subscriber) :
  JsMap.has c subs = false ->
  events_for c t (map (fun e => event_sent now reg (fst e) t m) subs) = [].
Proof.
  intros Hc. rewrite events_for_map.
  apply select_none. now apply has_false_keys.
Qed.

Lemma replies_of_events now reg s t (l : list PublishPayload) :
  List.filter is_reply (map (event_sent now reg s t) l) = [].
Proof. induction l as [| m l IH]; simpl; [reflexivity | exact IH]. Qed.

Lemma replies_of_fanout now reg t m (subs : JsMap.t Subscriber) :
  List.filter is_reply (map (fun e => event_sent now reg (fst e) t m) subs)
  = [].
Proof. induction subs as [| e l IH]; simpl; [reflexivity | exact IH]. Qed.

End ReachFacts.

(** X12.  On a running broker a publish on a topic of the registry
    emits one event to every socket of the table of the topic, in the order
    of the table, and nothing else: a socket without a record there (the
    publisher included) gets no event, no event of another topic is
    emitted, and the records of the other topics are untouched.  The topic
    counts one more message and one more delivery per subscriber. *)
Theorem publish_reaches_exactly_the_subscribers (options : BrokerOptions)
    (clock : Z) (ops : list Op) (t : string) (m : PublishPayload)
    (r : option UUID) (topic : Topic) :
  let w := run ops (init options clock) in
  let w' := snd (publish t m r w) in
  JsMap.get t (topics w) = Some topic ->
  wire w'
  = wire w ++
    map (fun c => event_sent (now w) (JsMap.keys (topics w)) c t m)
      (JsMap.keys (subscribers topic))
  /\ (forall c,
         events_for c t (wire w')
         = events_for c t (wire w)
           ++ (if JsMap.has c (subscribers topic) then [m] else []))
  /\ (forall c t', t' <> t ->
         events_for c t' (wire w') = events_for c t' (wire w))
  /\ (forall t', t' <> t ->
         JsMap.get t' (topics w') = JsMap.get t' (topics w))
  /\ exists topic',
       JsMap.get t (topics w') = Some topic'
       /\ subscribers topic' = subscribers topic
       /\ TopicStats.messages (stats topic')
          = S (TopicStats.messages (stats topic))
       /\ TopicStats.delivered (stats topic')
          = TopicStats.delivered (stats topic)
            + JsMap.size (subscribers topic).
Proof.
  intros w w' Hg.
  assert (HI : Inv w) by apply InvFacts.Inv_run, InvFacts.Inv_init.
  unfold w'. rewrite (BrokerFacts.publish_found _ _ _ _ _ HI Hg).
  cbn [snd wire topics with_wire with_topics].
  destruct (BrokerFacts.Inv_get _ _ _ HI Hg) as [Hnd _]. simpl in Hnd.
  split; [| split; [| split; [| split]]].
  - f_equal. unfold JsMap.keys. now rewrite map_map.
  - intros c. rewrite WireFacts.events_for_app. f_equal.
    destruct (JsMap.has c (subscribers topic)) eqn:Hc.
    + now apply WireFacts.events_for_fanout.
    + now apply ReachFacts.events_for_stranger.
  - intros c t' Hne. rewrite WireFacts.events_for_app.
    rewrite ReachFacts.events_for_other_topic by exact Hne.
    apply app_nil_r.
  - intros t' Hne. apply MapFacts.get_set_ne. congruence.
  - rewrite MapFacts.get_set_eq. eexists. split; [reflexivity |].
    cbn [subscribers stats]. rewrite DeliveryFacts.account_fold.
    destruct (stats topic). repeat split.
Qed.

Lemma publish_reaches_exactly_the_subscribers_witness :
  exists topic,
    JsMap.get "t"%string (topics sample) = Some topic
    /\ events_for "b"%string "t"%string
         (wire (snd (publish "t"%string (sample_payload 2) None sample)))
       = events_for "b"%string "t"%string (wire sample)
         ++ [sample_payload 2]
    /\ events_for "a"%string "t"%string
         (wire (snd (publish "t"%string (sample_payload 2) None sample)))
       = events_for "a"%string "t"%string (wire sample) ++ [].
Proof.
  eexists. split; [vm_compute; reflexivity |].
  destruct (publish_reaches_exactly_the_subscribers server_opts 0%Z
              [ OpCreateTopic "t"%string;
                OpSubscribe "b"%string "t"%string "bob"%string None None;
                OpPublish "t"%string (sample_payload 0) None;
                OpPublish "t"%string (sample_payload 1) None ]
              "t"%string (sample_payload 2) None _ eq_refl)
    as [_ [H _]].
  split; [exact (H "b"%string) | exact (H "a"%string)].
Defined.

(** ** What a step does to a topic that is there *)

Module MonoFacts.
Import MapFacts MapMore DeliveryFacts BrokerFacts InvFacts.

Lemma counters_le_refl st : counters_le st st.
Proof. repeat split; lia. Qed.

Lemma counters_le_account {A : Type} Q (l : list A) n st :
  counters_le st
    (fold_left (fun st _ => account Q st) l (set_subscribers n st)).
Proof.
  rewrite account_fold. destruct st. repeat split; simpl; lia.
Qed.

Lemma keeps_createTopic t0 t topic w :
  JsMap.get t (topics w) = Some topic ->
  JsMap.get t (topics (snd (createTopic t0 w))) = Some topic.
Proof.
  intros Hg. unfold createTopic.
  destruct (JsMap.has t0 (topics w)) eqn:Hh; [exact Hg |].
  simpl. rewrite get_set_ne; [exact Hg |].
  intros ->. unfold JsMap.has in Hh. now rewrite Hg in Hh.
Qed.

Lemma keeps_deleteTopic t0 t topic w :
  t0 <> t ->
  JsMap.get t (topics w) = Some topic ->
  JsMap.get t (topics (snd (deleteTopic t0 w))) = Some topic.
Proof.
  intros Hne Hg. destruct (JsMap.get t0 (topics w)) as [topic0 |] eqn:Hg0.
  - rewrite (deleteTopic_found _ _ _ Hg0). cbn [snd topics with_topics with_wire emit].
    now rewrite (get_delete_ne t0 t (topics w) Hne).
  - unfold deleteTopic. now rewrite Hg0.
Qed.

Lemma keeps_subscribe s t0 c n r t topic w :
  JsMap.get t (topics w) = Some topic ->
  exists topic',
    JsMap.get t (topics (subscribe s t0 c n r w)) = Some topic'
    /\ counters_le (stats topic) (stats topic').
Proof.
  intros Hg. destruct (JsMap.get t0 (topics w)) as [topic0 |] eqn:Hg0.
  - rewrite (subscribe_found _ _ _ _ _ _ _ Hg0). cbn [snd topics with_topics with_wire emit].
    destruct (String.eqb_spec t0 t) as [-> | Hne].
    + rewrite Hg in Hg0. injection Hg0 as <-.
      rewrite get_set_eq. eexists. split; [reflexivity |].
      apply counters_le_account.
    + rewrite get_set_ne by exact Hne. exists topic.
      split; [exact Hg | apply counters_le_refl].
  - unfold subscribe. rewrite Hg0. exists topic.
    split; [exact Hg | apply counters_le_refl].
Qed.

Lemma keeps_unsubscribe s t0 c r t topic w :
  JsMap.get t (topics w) = Some topic ->
  exists topic',
    JsMap.get t (topics (unsubscribe s t0 c r w)) = Some topic'
    /\ counters_le (stats topic) (stats topic').
Proof.
  intros Hg. unfold unsubscribe.
  destruct (JsMap.get t0 (topics w)) as [topic0 |] eqn:Hg0.
  - cbn [snd topics with_topics with_wire emit]. destruct (String.eqb_spec t0 t) as [-> | Hne].
    + rewrite Hg in Hg0. injection Hg0 as <-.
      rewrite get_set_eq. eexists. split; [reflexivity |].
      destruct (stats topic). repeat split; simpl; lia.
    + rewrite get_set_ne by exact Hne. exists topic.
      split; [exact Hg | apply counters_le_refl].
  - exists topic. split; [exact Hg | apply counters_le_refl].
Qed.

Lemma keeps_publish t0 m r t topic w :
  Inv w ->
  JsMap.get t (topics w) = Some topic ->
  exists topic',
    JsMap.get t (topics (snd (publish t0 m r w))) = Some topic'
    /\ counters_le (stats topic) (stats topic').
Proof.
  intros HI Hg. destruct (JsMap.get t0 (topics w)) as [topic0 |] eqn:Hg0.
  - rewrite (publish_found _ _ _ _ _ HI Hg0). cbn [snd topics with_topics with_wire emit].
    destruct (String.eqb_spec t0 t) as [-> | Hne].
    + rewrite Hg in Hg0. injection Hg0 as <-.
      rewrite get_set_eq. eexists. split; [reflexivity |].
      cbn [stats]. rewrite account_fold.
      destruct (stats topic). repeat split; simpl; lia.
    + rewrite get_set_ne by exact Hne. exists topic.
      split; [exact Hg | apply counters_le_refl].
  - unfold publish. rewrite Hg0. exists topic.
    split; [exact Hg | apply counters_le_refl].
Qed.

Lemma keeps_handleSocketDisconnect s t topic w :
  JsMap.get t (topics w) = Some topic ->
  exists topic',
    JsMap.get t (topics (handleSocketDisconnect s w)) = Some topic'
    /\ counters_le (stats topic) (stats topic').
Proof.
  intros Hg. rewrite DisconnectFacts.hsd_get, Hg. simpl option_map.
  eexists. split; [reflexivity |].
  destruct (JsMap.has s (subscribers topic)); [| apply counters_le_refl].
  destruct (stats topic). repeat split; simpl; lia.
Qed.

Lemma keeps_onMessage s msg t topic w :
  Inv w ->
  JsMap.get t (topics w) = Some topic ->
  exists topic',
    JsMap.get t (topics (onMessage s msg w)) = Some topic'
    /\ counters_le (stats topic) (stats topic').
Proof.
  intros HI Hg. destruct msg as [r t0 c n | r t0 c | r t0 m | r | r]; simpl.
  - now apply keeps_subscribe.
  - now apply keeps_unsubscribe.
  - pose proof (keeps_publish t0 m r t topic w HI Hg) as H.
    destruct (publish t0 m r w) as [[ts |] w1]; exact H.
  - exists topic. split; [exact Hg | apply counters_le_refl].
  - exists topic. split; [exact Hg | apply counters_le_refl].
Qed.

End MonoFacts.

(** X13.  On a running broker a topic stays in the registry under every
    operation but its own [deleteTopic], and none of its counters
    [messages], [delivered], [dropped] ever decreases; its own
    [deleteTopic] removes it. *)
Theorem counters_never_decrease (options : BrokerOptions) (clock : Z)
    (ops : list Op) (op : Op) (t : string) (topic : Topic) :
  let w := run ops (init options clock) in
  JsMap.get t (topics w) = Some topic ->
  (op = OpDeleteTopic t /\ JsMap.get t (topics (step w op)) = None)
  \/ (op <> OpDeleteTopic t
      /\ exists topic',
           JsMap.get t (topics (step w op)) = Some topic'
           /\ counters_le (stats topic) (stats topic')).
Proof.
  intros w Hg.
  assert (HI : Inv w) by apply InvFacts.Inv_run, InvFacts.Inv_init.
  assert (Hsame : exists topic',
             JsMap.get t (topics w) = Some topic'
             /\ counters_le (stats topic) (stats topic')).
  { exists topic. split; [exact Hg | apply MonoFacts.counters_le_refl]. }
  destruct op as [t0 | t0 | s t0 c n r | s t0 c r | t0 m r | s | s msg | ss | z];
    simpl step;
    try (right; split; [discriminate |]).
  - exists topic. split; [| apply MonoFacts.counters_le_refl].
    now apply MonoFacts.keeps_createTopic.
  - destruct (String.eqb_spec t0 t) as [-> | Hne].
    + left. split; [reflexivity |].
      rewrite (BrokerFacts.deleteTopic_found _ _ _ Hg). cbn [snd topics with_topics with_wire emit].
      apply (MapFacts.get_delete_eq t (topics w)).
    + right. split; [congruence |]. exists topic.
      split; [| apply MonoFacts.counters_le_refl].
      now apply MonoFacts.keeps_deleteTopic.
  - now apply MonoFacts.keeps_subscribe.
  - now apply MonoFacts.keeps_unsubscribe.
  - now apply MonoFacts.keeps_publish.
  - now apply MonoFacts.keeps_handleSocketDisconnect.
  - now apply MonoFacts.keeps_onMessage.
  - rewrite BrokerFacts.heartbeat_wire. exact Hsame.
  - exact Hsame.
Qed.

Lemma counters_never_decrease_witness :
  exists topic,
    JsMap.get "t"%string (topics sample) = Some topic
    /\ ((OpPublish "t"%string (sample_payload 2) None
         = OpDeleteTopic "t"%string
         /\ JsMap.get "t"%string
              (topics (step sample
                         (OpPublish "t"%string (sample_payload 2) None)))
            = None)
        \/ (OpPublish "t"%string (sample_payload 2) None
            <> OpDeleteTopic "t"%string
            /\ exists topic',
                 JsMap.get "t"%string
                   (topics (step sample
                              (OpPublish "t"%string (sample_payload 2) None)))
                 = Some topic'
                 /\ counters_le (stats topic) (stats topic'))).
Proof.
  eexists. split; [vm_compute; reflexivity |].
  exact (counters_never_decrease server_opts 0%Z
           [ OpCreateTopic "t"%string;
             OpSubscribe "b"%string "t"%string "bob"%string None None;
             OpPublish "t"%string (sample_payload 0) None;
             OpPublish "t"%string (sample_payload 1) None ]
           (OpPublish "t"%string (sample_payload 2) None) "t"%string _
           eq_refl).
Defined.

(** X14.  On a running broker the handler answers every inbound message
    with exactly one message that is no event (an [ack], an [error] or a
    [pong]), sent to the socket the message came from; everything else it
    emits is an event. *)
Theorem one_reply_per_message (options : BrokerOptions) (clock : Z)
    (ops : list Op) (s : SocketId) (msg : ClientMessage) :
  let w := run ops (init options clock) in
  exists seg reply,
    wire (onMessage s msg w) = wire w ++ seg
    /\ List.filter is_reply seg = [reply]
    /\ to reply = s.
Proof.
  intros w.
  assert (HI : Inv w) by apply InvFacts.Inv_run, InvFacts.Inv_init.
  destruct msg as [r t c n | r t c | r t m | r | r]; simpl.
  - destruct (JsMap.get t (topics w)) as [topic |] eqn:Hg.
    + rewrite (BrokerFacts.subscribe_found _ _ _ _ _ _ _ Hg).
      do 2 eexists. split; [reflexivity |]. simpl.
      rewrite ReachFacts.replies_of_events. split; reflexivity.
    + unfold subscribe. rewrite Hg. do 2 eexists.
      split; [reflexivity |]. split; reflexivity.
  - unfold unsubscribe.
    destruct (JsMap.get t (topics w)); do 2 eexists;
      (split; [reflexivity |]); split; reflexivity.
  - destruct (JsMap.get t (topics w)) as [topic |] eqn:Hg.
    + rewrite (BrokerFacts.publish_found _ _ _ _ _ HI Hg).
      cbn [emit wire with_wire with_topics]. rewrite <- app_assoc.
      do 2 eexists. split; [reflexivity |].
      rewrite List.filter_app, ReachFacts.replies_of_fanout.
      split; reflexivity.
    + unfold publish. rewrite Hg. do 2 eexists.
      split; [reflexivity |]. split; reflexivity.
  - do 2 eexists. split; [reflexivity |]. split; reflexivity.
  - do 2 eexists. split; [reflexivity |]. split; reflexivity.
Qed.

(** X15.  After [deleteTopic t], whatever it returned, the topic is not
    in the registry: a [subscribe], an [unsubscribe] and a [publish] on it
    are refused ([TOPIC_NOT_FOUND] to the socket, not-found to the caller)
    and change nothing in the broker, and a second [deleteTopic] returns
    not-found. *)
Theorem deleted_topic_is_gone (w : World) (t : string) (s : SocketId)
    (c : string) (n : option Z) (r : option UUID) (m : PublishPayload) :
  let w' := snd (deleteTopic t w) in
  let refusal :=
    ErrorMessage (truthy r) (Some (toISOString (now w'))) TOPIC_NOT_FOUND
      (not_found_message t) in
  JsMap.get t (topics w') = None
  /\ subscribe s t c n r w' = emit s refusal w'
  /\ unsubscribe s t c r w' = emit s refusal w'
  /\ publish t m r w' = (PublishNotFound, w')
  /\ deleteTopic t w' = (DeleteNotFound, w').
Proof.
  intros w' refusal.
  assert (Hg : JsMap.get t (topics w') = None).
  { unfold w'. destruct (JsMap.get t (topics w)) as [topic |] eqn:Hg.
    - rewrite (BrokerFacts.deleteTopic_found _ _ _ Hg).
      cbn [snd topics with_topics with_wire].
      apply (MapFacts.get_delete_eq t (topics w)).
    - unfold deleteTopic. now rewrite Hg. }
  split; [exact Hg |].
  unfold subscribe, unsubscribe, publish, deleteTopic. rewrite Hg.
  repeat split.
Qed.

(** X16.  A topic that is deleted and created again starts afresh: the
    new record has no subscriber, counters at 0 and an empty ring, so that
    a [subscribe] with any [last_n] is answered with the [ack] alone. *)
Theorem recreated_topic_starts_afresh (w : World) (t : string)
    (s : SocketId) (c : string) (n : option Z) (r : option UUID) :
  let w' := snd (createTopic t (snd (deleteTopic t w))) in
  fst (createTopic t (snd (deleteTopic t w))) = CreateOk
  /\ JsMap.get t (topics w')
     = Some {| name := t; subscribers := JsMap.empty;
               ring := RingBuffer.new (ringBufferSize (opts w));
               stats := TopicStats.mk 0 0 0 0 |}
  /\ wire (subscribe s t c n r w')
     = wire w' ++ [ack_sent (now w') (JsMap.keys (topics w')) s r t].
Proof.
  intros w'.
  assert (Hgone : JsMap.has t (topics (snd (deleteTopic t w))) = false).
  { apply MapMore.get_None_has.
    destruct (JsMap.get t (topics w)) as [topic |] eqn:Hg.
    - rewrite (BrokerFacts.deleteTopic_found _ _ _ Hg).
      cbn [snd topics with_topics with_wire].
      apply (MapFacts.get_delete_eq t (topics w)).
    - unfold deleteTopic. now rewrite Hg. }
  assert (Hopts : opts (snd (deleteTopic t w)) = opts w).
  { exact (InvFacts.opts_step w (OpDeleteTopic t)). }
  assert (Hg' : JsMap.get t (topics w')
                = Some {| name := t; subscribers := JsMap.empty;
                          ring := RingBuffer.new (ringBufferSize (opts w));
                          stats := TopicStats.mk 0 0 0 0 |}).
  { unfold w', createTopic. rewrite Hgone, Hopts.
    cbn [snd topics with_topics]. apply MapFacts.get_set_eq. }
  split; [| split; [exact Hg' |]].
  - unfold createTopic. now rewrite Hgone.
  - rewrite (BrokerFacts.subscribe_found _ _ _ _ _ _ _ Hg').
    cbn [wire with_wire with_topics ring].
    now rewrite BurstFacts.replayed_new.
Qed.

(** ** The REST routes and the server *)

Module ServerFacts.
Import MapFacts MapMore BrokerFacts.

(** What the schema lets through. *)
Lemma schema_accepts (v : option Json) (d : string) :
  topicNameSchema v = Some d <->
  v = Some (JString d)
  /\ 1 <= String.length d <= 200
  /\ forallb topic_char (list_ascii_of_string d) = true.
Proof.
  unfold topicNameSchema, topic_regex. split.
  - destruct v as [[| | | s | |] |]; try discriminate.
    destruct (Nat.leb_spec 1 (String.length s)); [| discriminate].
    destruct (Nat.leb_spec (String.length s) 200); [| discriminate].
    destruct (Nat.eqb_spec (String.length s) 0); [lia |].
    simpl. destruct (forallb _ _) eqn:Hc; [| discriminate].
    intros [= <-]. repeat split; auto.
  - intros [-> [[H1 H2] Hc]]. rewrite Hc.
    destruct (Nat.leb_spec 1 (String.length d)); [| lia].
    destruct (Nat.leb_spec (String.length d) 200); [| lia].
    destruct (Nat.eqb_spec (String.length d) 0); [lia |]. reflexivity.
Qed.

Lemma schema_data (v : option Json) (d : string) :
  topicNameSchema v = Some d -> topicNameSchema (Some (JString d)) = Some d.
Proof.
  intros H. apply schema_accepts in H as [_ H]. now apply schema_accepts.
Qed.

Lemma keys_subscribe s t c n r w :
  JsMap.keys (topics (subscribe s t c n r w)) = JsMap.keys (topics w).
Proof.
  destruct (JsMap.get t (topics w)) as [topic |] eqn:Hg.
  - rewrite (subscribe_found _ _ _ _ _ _ _ Hg).
    cbn [topics with_wire with_topics].
    apply keys_set_present. now apply get_Some_has in Hg.
  - unfold subscribe. now rewrite Hg.
Qed.

Lemma keys_unsubscribe s t c r w :
  JsMap.keys (topics (unsubscribe s t c r w)) = JsMap.keys (topics w).
Proof.
  unfold unsubscribe. destruct (JsMap.get t (topics w)) as [topic |] eqn:Hg.
  - cbn [topics emit with_wire with_topics].
    apply keys_set_present. now apply get_Some_has in Hg.
  - reflexivity.
Qed.

Lemma keys_publish t m r w :
  JsMap.keys (topics (snd (publish t m r w))) = JsMap.keys (topics w).
Proof.
  unfold publish. destruct (JsMap.get t (topics w)) as [topic |] eqn:Hg.
  - destruct (fanout _ _ _ _ _ _) as [subs [st out]].
    cbn [snd topics with_wire with_topics].
    apply keys_set_present. now apply get_Some_has in Hg.
  - reflexivity.
Qed.

Lemma keys_onMessage s msg w :
  JsMap.keys (topics (onMessage s msg w)) = JsMap.keys (topics w).
Proof.
  destruct msg as [r t c n | r t c | r t m | r | r]; simpl.
  - apply keys_subscribe.
  - apply keys_unsubscribe.
  - pose proof (keys_publish t m r w) as H.
    destruct (publish t m r w) as [[ts |] w']; exact H.
  - reflexivity.
  - reflexivity.
Qed.

Lemma keys_handleSocketDisconnect s w :
  JsMap.keys (topics (handleSocketDisconnect s w)) = JsMap.keys (topics w).
Proof.
  unfold handleSocketDisconnect. cbn [topics with_topics].
  apply keys_map. intros e. apply SoundFacts.hsd_entry_fst.
Qed.

Lemma names_valid_serve w i : names_valid w -> names_valid (serve w i).
Proof.
  unfold names_valid. intros Hv.
  destruct i as [v | n | s msg | s | ss | z]; cbn [serve].
  - unfold postTopics. destruct (topicNameSchema v) as [d |] eqn:Hs;
      [| exact Hv].
    unfold createTopic. destruct (JsMap.has d (topics w)) eqn:Hh;
      [exact Hv |].
    cbn [snd topics with_topics]. rewrite (keys_set_fresh _ _ _ Hh).
    apply List.Forall_app. split; [exact Hv |].
    constructor; [| constructor]. exact (schema_data _ _ Hs).
  - unfold deleteTopics.
    destruct (topicNameSchema (Some (JString n))) as [d |]; [| exact Hv].
    destruct (JsMap.get d (topics w)) as [topic |] eqn:Hg.
    + rewrite (deleteTopic_found _ _ _ Hg).
      cbn [snd topics with_topics with_wire].
      rewrite keys_delete.
      apply List.Forall_forall. intros k Hk.
      apply List.filter_In in Hk as [Hk _].
      exact (proj1 (List.Forall_forall _ _) Hv k Hk).
    + unfold deleteTopic. now rewrite Hg.
  - now rewrite keys_onMessage.
  - now rewrite keys_handleSocketDisconnect.
  - now rewrite heartbeat_wire.
  - exact Hv.
Qed.

Lemma names_valid_serve_all l w :
  names_valid w -> names_valid (serve_all l w).
Proof.
  revert w. induction l as [| i l IH]; intros w Hv; simpl.
  - exact Hv.
  - apply IH. now apply names_valid_serve.
Qed.

End ServerFacts.

(** X17.  Whatever reaches the server, every name in the registry has
    passed the schema of the routes: it has between 1 and 200 characters,
    all of them letters, digits, [.], [_] or [-]. *)
Theorem registry_names_pass_schema (options : BrokerOptions) (clock : Z)
    (l : list Inbound) :
  Forall (fun k =>
            1 <= String.length k <= 200
            /\ forallb topic_char (list_ascii_of_string k) = true)
    (JsMap.keys (topics (serve_all l (init options clock)))).
Proof.
  assert (H : names_valid (serve_all l (init options clock))).
  { apply ServerFacts.names_valid_serve_all. constructor. }
  refine (List.Forall_impl _ _ H). intros k Hk.
  now apply ServerFacts.schema_accepts in Hk as [_ Hk].
Qed.

(** X18.  Only the two REST routes change the set of topics: a message
    on a socket, the loss of a socket, a heartbeat and the passing of time
    leave the names of the registry and their order as they are. *)
Theorem socket_events_keep_topic_set (w : World) (i : Inbound) :
  match i with
  | HttpPostTopics _ | HttpDeleteTopics _ => True
  | _ => JsMap.keys (topics (serve w i)) = JsMap.keys (topics w)
  end.
Proof.
  destruct i as [v | n | s msg | s | ss | z]; cbn [serve]; try exact I.
  - apply ServerFacts.keys_onMessage.
  - apply ServerFacts.keys_handleSocketDisconnect.
  - now rewrite BrokerFacts.heartbeat_wire.
  - reflexivity.
Qed.

(** X19.  For a name [n] that passes the schema and is not in the
    registry: [POST /topics] answers 201 and puts an empty topic at the end
    of the registry; a second [POST] answers 409 and changes nothing;
    [DELETE /topics/n] then answers 200 and gives back the state before the
    first [POST]; and [DELETE] of the name while it is absent answers 404
    and changes nothing. *)
Theorem rest_topic_lifecycle (w : World) (n : string) :
  topicNameSchema (Some (JString n)) = Some n ->
  JsMap.has n (topics w) = false ->
  let w1 := snd (postTopics (Some (JString n)) w) in
  fst (postTopics (Some (JString n)) w) = topic_status 201 "created" n
  /\ JsMap.keys (topics w1) = JsMap.keys (topics w) ++ [n]
  /\ postTopics (Some (JString n)) w1 = (topic_status 409 "conflict" n, w1)
  /\ deleteTopics n w1 = (topic_status 200 "deleted" n, w)
  /\ deleteTopics n w = (topic_status 404 "not_found" n, w).
Proof.
  intros Hs Hfresh w1.
  assert (Hpost : postTopics (Some (JString n)) w
                  = (topic_status 201 "created" n,
                     with_topics
                       (JsMap.set n
                          {| name := n; subscribers := JsMap.empty;
                             ring := RingBuffer.new (ringBufferSize (opts w));
                             stats := TopicStats.mk 0 0 0 0 |}
                          (topics w)) w)).
  { unfold postTopics. rewrite Hs. unfold createTopic. now rewrite Hfresh. }
  unfold w1. rewrite Hpost. cbn [fst snd].
  split; [reflexivity |]. split; [now apply MapMore.keys_set_fresh |].
  split; [| split].
  - unfold postTopics. rewrite Hs. unfold createTopic.
    cbn [topics with_topics].
    unfold JsMap.has. now rewrite MapFacts.get_set_eq.
  - unfold deleteTopics. rewrite Hs.
    erewrite BrokerFacts.deleteTopic_found
      by (cbn [topics with_topics]; apply MapFacts.get_set_eq).
    cbn [topics with_topics with_wire wire subscribers now opts].
    rewrite (MapFacts.delete_set_fresh n _ (topics w) Hfresh).
    simpl. rewrite app_nil_r. now destruct w.
  - unfold deleteTopics. rewrite Hs. unfold deleteTopic.
    unfold JsMap.has in Hfresh.
    now destruct (JsMap.get n (topics w)).
Qed.

Lemma rest_topic_lifecycle_witness :
  topicNameSchema (Some (JString "e2e")) = Some "e2e"%string
  /\ JsMap.has "e2e"%string (topics sample) = false
  /\ status (fst (postTopics (Some (JString "e2e")) sample)) = 201
  /\ status (fst (postTopics (Some (JString "e2e"))
                    (snd (postTopics (Some (JString "e2e")) sample)))) = 409
  /\ deleteTopics "e2e"%string (snd (postTopics (Some (JString "e2e")) sample))
     = (topic_status 200 "deleted" "e2e", sample).
Proof.
  split; [reflexivity |]. split; [reflexivity |].
  destruct (rest_topic_lifecycle sample "e2e"%string eq_refl eq_refl)
    as [H1 [_ [H3 [H4 _]]]].
  split; [now rewrite H1 |]. split; [now rewrite H3 | exact H4].
Defined.

(** ** Replay of what was published *)

Module ReplayFacts.
Import MapFacts MapMore BrokerFacts InvFacts.

Lemma publish_all_ring (t : string) ms (w : World) (topic : Topic) :
  Inv w -> JsMap.get t (topics w) = Some topic ->
  exists topic',
    JsMap.get t (topics (publish_all t ms w)) = Some topic'
    /\ ring topic' = RingBuffer.appends (map fst ms) (ring topic)
    /\ subscribers topic' = subscribers topic
    /\ now (publish_all t ms w) = now w
    /\ JsMap.keys (topics (publish_all t ms w)) = JsMap.keys (topics w)
    /\ (subscribers topic = [] -> wire (publish_all t ms w) = wire w).
Proof.
  revert w topic. induction ms as [| [m r] ms IH]; intros w topic HI Hg.
  - exists topic. repeat split; auto.
  - unfold publish_all. simpl fold_left.
    pose proof (Inv_publish t m r w HI) as HI'.
    rewrite (publish_found _ _ _ _ _ HI Hg) in *. cbn [snd] in *.
    match goal with
    | |- context [fold_left _ ms ?w1] =>
        destruct (IH w1 _ HI' (get_set_eq _ _ _))
          as [topic' [H1 [H2 [H3 [H4 [H5 H6]]]]]]
    end.
    exists topic'. split; [exact H1 |]. split; [exact H2 |].
    split; [exact H3 |]. split; [exact H4 |]. split.
    + unfold publish_all in H5. rewrite H5. cbn [topics with_wire with_topics].
      apply keys_set_present. now apply get_Some_has in Hg.
    + intros Hnone. unfold publish_all in H6.
      rewrite H6 by exact Hnone. cbn [wire with_wire with_topics].
      rewrite Hnone. simpl. apply app_nil_r.
Qed.

End ReplayFacts.

(** X20.  On a running broker, create a topic, publish the payloads
    [ms] on it while it has no subscriber, and then subscribe a socket with
    [last_n = n > 0].  The publishes emit nothing; the subscriber is sent
    the [ack] and then the last [min n R] payloads of [ms] (all of them if
    there are fewer), in the order of publication, where [R] is the
    configured ring size. *)
Theorem replay_sends_recent_history (options : BrokerOptions) (clock : Z)
    (ops : list Op) (t : string) (ms : list (PublishPayload * option UUID))
    (s : SocketId) (c : string) (n : Z) (r : option UUID) :
  let w0 := run ops (init options clock) in
  let w1 := publish_all t ms (snd (createTopic t w0)) in
  let w := subscribe s t c (Some n) r w1 in
  let recent :=
    drop (length ms - Nat.min (Z.to_nat n) (ringBufferSize options))
      (map fst ms) in
  JsMap.has t (topics w0) = false ->
  (0 < n)%Z ->
  wire w1 = wire w0
  /\ wire w
     = wire w0 ++
       ack_sent (now w0) (JsMap.keys (topics w0) ++ [t]) s r t
       :: map (event_sent (now w0) (JsMap.keys (topics w0) ++ [t]) s t)
            recent
  /\ events_for s t (wire w) = events_for s t (wire w0) ++ recent.
Proof.
  intros w0 w1 w recent Hfresh Hn.
  assert (HI0 : Inv w0) by apply InvFacts.Inv_run, InvFacts.Inv_init.
  assert (Ho0 : opts w0 = options).
  { unfold w0. now rewrite InvFacts.opts_run. }
  set (wc := snd (createTopic t w0)) in *.
  assert (HIc : Inv wc) by now apply InvFacts.Inv_createTopic.
  assert (Hwc : wc = with_topics
                       (JsMap.set t
                          {| name := t; subscribers := JsMap.empty;
                             ring := RingBuffer.new (ringBufferSize options);
                             stats := TopicStats.mk 0 0 0 0 |}
                          (topics w0)) w0).
  { unfold wc, createTopic. now rewrite Hfresh, Ho0. }
  assert (Hgc : JsMap.get t (topics wc)
                = Some {| name := t; subscribers := JsMap.empty;
                          ring := RingBuffer.new (ringBufferSize options);
                          stats := TopicStats.mk 0 0 0 0 |}).
  { rewrite Hwc. cbn [topics with_topics]. apply MapFacts.get_set_eq. }
  destruct (ReplayFacts.publish_all_ring t ms wc _ HIc Hgc)
    as [topic' [H1 [H2 [H3 [H4 [H5 H6]]]]]].
  fold w1 in H1, H4, H5, H6. cbn [ring subscribers] in H2, H3, H6.
  specialize (H6 eq_refl).
  assert (Hw1 : wire w1 = wire w0) by (rewrite H6, Hwc; reflexivity).
  assert (Hnow : now w1 = now w0) by (rewrite H4, Hwc; reflexivity).
  assert (Hkeys : JsMap.keys (topics w1) = JsMap.keys (topics w0) ++ [t]).
  { rewrite H5, Hwc. cbn [topics with_topics].
    now apply MapMore.keys_set_fresh. }
  assert (Hrecent : replayed (Some n) (ring topic') = recent).
  { unfold replayed. destruct (Z.ltb_spec 0 n) as [_ | ?]; [| lia].
    rewrite H2.
    pose proof (RingFacts.tracks_appends (ringBufferSize options)
                  (map fst ms) [] (RingBuffer.new (ringBufferSize options))
                  (RingFacts.tracks_new _)) as Htr.
    simpl app in Htr.
    rewrite (RingFacts.last_tracks _ _ _ n Htr) by lia.
    rewrite (tr_count _ _ _ Htr), length_map. unfold recent.
    f_equal. lia. }
  assert (Hwire : wire w
                  = wire w0 ++
                    ack_sent (now w0) (JsMap.keys (topics w0) ++ [t]) s r t
                    :: map (event_sent (now w0)
                              (JsMap.keys (topics w0) ++ [t]) s t) recent).
  { unfold w. rewrite (BrokerFacts.subscribe_found _ _ _ _ _ _ _ H1).
    cbn [wire with_wire with_topics].
    now rewrite Hrecent, Hw1, Hnow, Hkeys. }
  split; [exact Hw1 |]. split; [exact Hwire |].
  rewrite Hwire, WireFacts.events_for_app. f_equal.
  unfold events_for. simpl. clear.
  induction recent as [| m l IH]; simpl; [reflexivity |].
  now rewrite !String.eqb_refl, IH.
Qed.

Lemma replay_sends_recent_history_witness :
  JsMap.has "news"%string (topics sample) = false
  /\ (0 < 2)%Z
  /\ events_for "c"%string "news"%string
       (wire (subscribe "c"%string "news"%string "carol"%string (Some 2%Z)
                None
                (publish_all "news"%string
                   [ (sample_payload 1, None); (sample_payload 2, None);
                     (sample_payload 3, None) ]
                   (snd (createTopic "news"%string sample)))))
     = events_for "c"%string "news"%string (wire sample)
       ++ [sample_payload 2; sample_payload 3].
Proof.
  split; [reflexivity |]. split; [lia |].
  exact (proj2 (proj2
           (replay_sends_recent_history server_opts 0%Z
              [ OpCreateTopic "t"%string;
                OpSubscribe "b"%string "t"%string "bob"%string None None;
                OpPublish "t"%string (sample_payload 0) None;
                OpPublish "t"%string (sample_payload 1) None ]
              "news"%string
              [ (sample_payload 1, None); (sample_payload 2, None);
                (sample_payload 3, None) ]
              "c"%string "carol"%string 2%Z None eq_refl ltac:(lia)))).
Defined.

(** X21.  A [subscribe] from a socket that has no record in the table of
    the topic puts its record at the end of the table (so the fan-out
    reaches the sockets in the order in which they subscribed), leaves the
    other records as they are and counts one subscriber more. *)
Theorem subscribe_appends_new_socket (w : World) (s : SocketId)
    (t c : string) (n : option Z) (r : option UUID) (topic : Topic) :
  JsMap.get t (topics w) = Some topic ->
  JsMap.has s (subscribers topic) = false ->
  exists topic',
    JsMap.get t (topics (subscribe s t c n r w)) = Some topic'
    /\ subscribers topic'
       = subscribers topic
         ++ [(s, {| socket := s; clientId := c;
                    queue := BoundedQueue.new (subscriberQueueSize (opts w)) |})]
    /\ TopicStats.subscribers (stats topic')
       = S (JsMap.size (subscribers topic)).
Proof.
  intros Hg Hs. rewrite (BrokerFacts.subscribe_found _ _ _ _ _ _ _ Hg).
  cbn [topics with_wire with_topics]. rewrite MapFacts.get_set_eq.
  eexists. split; [reflexivity |]. cbn [subscribers stats].
  rewrite DeliveryFacts.account_fold. cbn [TopicStats.subscribers].
  rewrite (MapFacts.set_fresh _ _ _ Hs). split; [reflexivity |].
  destruct (stats topic). unfold JsMap.size. rewrite length_app. simpl. lia.
Qed.

Lemma subscribe_appends_new_socket_witness :
  exists topic topic',
    JsMap.get "t"%string (topics sample) = Some topic
    /\ JsMap.has "c"%string (subscribers topic) = false
    /\ JsMap.get "t"%string
         (topics (subscribe "c"%string "t"%string "carol"%string None None
                    sample)) = Some topic'
    /\ JsMap.keys (subscribers topic') = ["b"%string; "c"%string].
Proof.
  eexists.
  destruct (subscribe_appends_new_socket sample "c"%string "t"%string
              "carol"%string None None _ eq_refl eq_refl)
    as [topic' [H1 [H2 _]]].
  exists topic'. split; [vm_compute; reflexivity |].
  split; [reflexivity |]. split; [exact H1 |]. now rewrite H2.
Defined.

(** X22.  A [subscribe] that replays nothing, repeated from the same
    socket with the same client id, changes nothing in the registry the
    second time. *)
Theorem subscribe_again_changes_nothing (w : World) (s : SocketId)
    (t c : string) (n : option Z) (r r' : option UUID) (topic : Topic) :
  JsMap.get t (topics w) = Some topic ->
  replayed n (ring topic) = [] ->
  topics (subscribe s t c n r' (subscribe s t c n r w))
  = topics (subscribe s t c n r w).
Proof.
  intros Hg Hrep. rewrite (BrokerFacts.subscribe_found w _ _ _ _ _ _ Hg).
  erewrite BrokerFacts.subscribe_found
    by (cbn [topics with_wire with_topics]; apply MapFacts.get_set_eq).
  cbn [topics with_wire with_topics subscribers ring stats name opts].
  rewrite Hrep. cbn [fold_left].
  now rewrite !MapFacts.set_set.
Qed.

Lemma subscribe_again_changes_nothing_witness :
  exists topic,
    JsMap.get "t"%string (topics sample) = Some topic
    /\ replayed None (ring topic) = []
    /\ topics (subscribe "b"%string "t"%string "bob"%string None None
                 (subscribe "b"%string "t"%string "bob"%string None None
                    sample))
       = topics (subscribe "b"%string "t"%string "bob"%string None None
                   sample).
Proof.
  eexists. split; [vm_compute; reflexivity |]. split; [reflexivity |].
  exact (subscribe_again_changes_nothing sample "b"%string "t"%string
           "bob"%string None None None _ eq_refl eq_refl).
Defined.

Module CleanupFacts.
Import MapFacts MapMore.




End CleanupFacts.


